(** * Cadence: task writer, matching service, visibility store and history
    client, embedded from the Go sources.

    - [Chan]        : Go channels as far as the sources use them
    - [TaskWriter]  : service/matching task writer (appendTask, taskWriterLoop)
    - [Matching]    : service/matching Service.Start / Service.Stop
    - [Visibility]  : cassandraVisibilityPersistence.RecordWorkflowExecutionClosed
    - [HistoryClient] : the metricClient wrappers around history.Client
    - [TimerQueue]  : the timer queue processor's retry cycle *)

From stdpp Require Import base numbers list strings.
From Stdlib Require Import ZArith Lia.

Local Open Scope Z_scope.

(** A Go call either completes or panics. *)
Inductive outcome (A : Type) : Type :=
| Done (a : A)
| Panic.
Arguments Done {A} a.
Arguments Panic {A}.

Definition obind {A B} (m : outcome A) (k : A -> outcome B) : outcome B :=
  match m with
  | Done a => k a
  | Panic => Panic
  end.

Notation "'do' x <- m ; k" := (obind m (fun x => k))
  (at level 10, x pattern, m at level 100, k at level 200).

(** ** Go channels *)
Module Chan.

(** A channel of element type [A]: the queued elements (oldest first), the
    capacity given to [make], and whether [close] has been called. *)
Record chan (A : Type) : Type := mk {
  buf : list A;
  cap : nat;
  closed : bool
}.
Arguments mk {A} buf cap closed.
Arguments buf {A} c.
Arguments cap {A} c.
Arguments closed {A} c.

(** [make(chan A, n)] *)
Definition make {A} (n : nat) : chan A := mk [] n false.

(** [len(c) == cap(c)] *)
Definition full {A} (c : chan A) : bool := Nat.leb (cap c) (length (buf c)).

Inductive sendResult (A : Type) : Type :=
| Sent (c' : chan A)
| SendWouldBlock
| SendOnClosed.
Arguments Sent {A} c'.
Arguments SendWouldBlock {A}.
Arguments SendOnClosed {A}.

(** [select { case c <- x: ... default: ... }] on a buffered channel: a send
    on a closed channel panics, a send on a full one takes the default. *)
Definition trySend {A} (c : chan A) (x : A) : sendResult A :=
  if closed c then SendOnClosed
  else if full c then SendWouldBlock
  else Sent (mk (buf c ++ [x]) (cap c) (closed c)).

Inductive recvResult (A : Type) : Type :=
| Received (x : A) (c' : chan A)
| RecvWouldBlock
| RecvZero.
Arguments Received {A} x c'.
Arguments RecvWouldBlock {A}.
Arguments RecvZero {A}.

(** [select { case x := <-c: ... default: ... }]: a closed and drained
    channel yields the zero value at once. *)
Definition tryRecv {A} (c : chan A) : recvResult A :=
  match buf c with
  | x :: rest => Received x (mk rest (cap c) (closed c))
  | [] => if closed c then RecvZero else RecvWouldBlock
  end.

(** [close(c)]; closing twice panics. *)
Definition close {A} (c : chan A) : outcome (chan A) :=
  if closed c then Panic else Done (mk (buf c) (cap c) true).

End Chan.

(** ** The task writer (service/matching) *)
Module TaskWriter.

Definition outstandingTaskAppendsThreshold : nat := 250.
Definition maxTaskBatchSize : nat := 100.

Record taskListID : Type := mkTaskListID {
  domainID : string;
  taskListName : string;
  taskType : Z
}.

Section Writer.

(** Types of the shared and persistence packages, and the Go [error]. *)
Context {error WorkflowExecution TaskInfo CreateTasksResponse : Type}.

(** [createServiceBusyError()] of the matching package. *)
Variable createServiceBusyError : error.

Record writeTaskResponse : Type := mkResponse {
  err : option error;
  persistenceResponse : option CreateTasksResponse
}.

(** [responseCh] is the unbuffered channel made by the caller; it is
    identified by a number. *)
Record writeTaskRequest : Type := mkRequest {
  execution : WorkflowExecution;
  taskInfo : TaskInfo;
  rangeID : Z;
  responseCh : nat
}.

Record CreateTaskInfo : Type := mkCreateTaskInfo {
  TaskID : Z;
  Execution : WorkflowExecution;
  Data : TaskInfo
}.

Record CreateTasksRequest : Type := mkCreateTasksRequest {
  DomainID : string;
  TaskList : string;
  TaskListType : Z;
  Tasks : list CreateTaskInfo;
  RangeID : Z
}.

(** The task list manager's sequence allocator and the task store, with
    their states. *)
Context {TL Store : Type}.
Variable getTaskSequenceNumber : TL -> Z.
Variable newTaskIDs : TL -> nat -> (list Z + error) * TL.
Variable CreateTasks :
  Store -> CreateTasksRequest ->
  (option CreateTasksResponse * option error) * Store.

(** What [LogPersistantStoreErrorEvent] is given. *)
Record storeErrorEvent : Type := mkStoreErrorEvent {
  logErr : error;
  logFirstTaskID : Z;
  logLastTaskID : Z
}.

(** The writer and what it shares with its callers.  Beside the fields of
    the Go struct: [chanSeq] names the next response channel, [delivered]
    lists the responses sent on response channels, [createTasksCalls] the
    requests handed to [CreateTasks], and [loopExited] says that
    [taskWriterLoop] has returned. *)
Record taskWriter : Type := mkWriter {
  tlMgr : TL;
  tlID : taskListID;
  taskManager : Store;
  appendCh : Chan.chan writeTaskRequest;
  maxReadLevel : Z;
  shutdownCh : bool;
  logger : list storeErrorEvent;
  chanSeq : nat;
  delivered : list (nat * writeTaskResponse);
  createTasksCalls : list CreateTasksRequest;
  loopExited : bool
}.

Definition newTaskWriter (tl : TL) (id : taskListID) (st : Store)
  (shutdown : bool) : taskWriter :=
  mkWriter tl id st (Chan.make outstandingTaskAppendsThreshold) 0 shutdown
           [] O [] [] false.

Definition set_appendCh (w : taskWriter) (c : Chan.chan writeTaskRequest) :=
  mkWriter (tlMgr w) (tlID w) (taskManager w) c (maxReadLevel w)
           (shutdownCh w) (logger w) (chanSeq w) (delivered w)
           (createTasksCalls w) (loopExited w).

Definition set_chanSeq (w : taskWriter) (n : nat) :=
  mkWriter (tlMgr w) (tlID w) (taskManager w) (appendCh w) (maxReadLevel w)
           (shutdownCh w) (logger w) n (delivered w)
           (createTasksCalls w) (loopExited w).

(** Where a call of [appendTask] stands. *)
Inductive appendTaskState : Type :=
| Returned (r : option CreateTasksResponse) (e : option error)
| AwaitingResponse (ch : nat)
| PanicSendOnClosed.

(** [appendTask] up to the point where it returns or blocks on [<-ch]. *)
Definition appendTask (w : taskWriter) (execution : WorkflowExecution)
  (taskInfo : TaskInfo) (rangeID : Z) : appendTaskState * taskWriter :=
  let ch := chanSeq w in
  let req := mkRequest execution taskInfo rangeID ch in
  let w1 := set_chanSeq w (S ch) in
  match Chan.trySend (appendCh w) req with
  | Chan.Sent c' => (AwaitingResponse ch, set_appendCh w1 c')
  | Chan.SendWouldBlock => (Returned None (Some createServiceBusyError), w1)
  | Chan.SendOnClosed => (PanicSendOnClosed, w1)
  end.

(** The first response sent on channel [ch], if any. *)
Fixpoint firstResponse (ch : nat) (d : list (nat * writeTaskResponse))
  : option writeTaskResponse :=
  match d with
  | [] => None
  | (c, r) :: d' => if Nat.eqb c ch then Some r else firstResponse ch d'
  end.

(** [r := <-ch; return r.persistenceResponse, r.err]: the call stays
    blocked until the writer has sent on [ch]. *)
Definition awaitResponse (w : taskWriter) (ch : nat) : appendTaskState :=
  match firstResponse ch (delivered w) with
  | Some r => Returned (persistenceResponse r) (err r)
  | None => AwaitingResponse ch
  end.

Definition set_tlMgr (w : taskWriter) (tl : TL) :=
  mkWriter tl (tlID w) (taskManager w) (appendCh w) (maxReadLevel w)
           (shutdownCh w) (logger w) (chanSeq w) (delivered w)
           (createTasksCalls w) (loopExited w).

Definition set_maxReadLevel (w : taskWriter) (l : Z) :=
  mkWriter (tlMgr w) (tlID w) (taskManager w) (appendCh w) l
           (shutdownCh w) (logger w) (chanSeq w) (delivered w)
           (createTasksCalls w) (loopExited w).

Definition set_shutdownCh (w : taskWriter) (b : bool) :=
  mkWriter (tlMgr w) (tlID w) (taskManager w) (appendCh w) (maxReadLevel w)
           b (logger w) (chanSeq w) (delivered w)
           (createTasksCalls w) (loopExited w).

Definition set_logger (w : taskWriter) (l : list storeErrorEvent) :=
  mkWriter (tlMgr w) (tlID w) (taskManager w) (appendCh w) (maxReadLevel w)
           (shutdownCh w) l (chanSeq w) (delivered w)
           (createTasksCalls w) (loopExited w).

Definition set_delivered (w : taskWriter)
  (d : list (nat * writeTaskResponse)) :=
  mkWriter (tlMgr w) (tlID w) (taskManager w) (appendCh w) (maxReadLevel w)
           (shutdownCh w) (logger w) (chanSeq w) d
           (createTasksCalls w) (loopExited w).

(** The store after a [CreateTasks] call, the call being recorded. *)
Definition set_taskManager (w : taskWriter) (st : Store)
  (call : CreateTasksRequest) :=
  mkWriter (tlMgr w) (tlID w) st (appendCh w) (maxReadLevel w)
           (shutdownCh w) (logger w) (chanSeq w) (delivered w)
           (createTasksCalls w ++ [call]) (loopExited w).

Definition set_loopExited (w : taskWriter) (b : bool) :=
  mkWriter (tlMgr w) (tlID w) (taskManager w) (appendCh w) (maxReadLevel w)
           (shutdownCh w) (logger w) (chanSeq w) (delivered w)
           (createTasksCalls w) b.

Definition GetMaxReadLevel (w : taskWriter) : Z := maxReadLevel w.

(** [int64] arithmetic wraps around. *)
Definition wrap64 (z : Z) : Z :=
  (z + 9223372036854775808) mod 18446744073709551616 - 9223372036854775808.

(** [Start]: the level below the next sequence number is readable; the
    loop is launched. *)
Definition Start (w : taskWriter) : taskWriter :=
  set_maxReadLevel w (wrap64 (getTaskSequenceNumber (tlMgr w) - 1)).

(** [getWriteBatch]: the loop [for i := 0; i < maxTaskBatchSize; i++], [n]
    being the number of iterations left.  A receive from a closed, drained
    channel yields a nil request, which the caller dereferences. *)
Fixpoint getWriteBatch_from (n : nat) (c : Chan.chan writeTaskRequest)
  (reqs : list writeTaskRequest)
  : outcome (list writeTaskRequest * Chan.chan writeTaskRequest) :=
  match n with
  | O => Done (reqs, c)
  | S n' =>
      match Chan.tryRecv c with
      | Chan.Received req c' => getWriteBatch_from n' c' (reqs ++ [req])
      | Chan.RecvWouldBlock => Done (reqs, c)
      | Chan.RecvZero => Panic
      end
  end.

Definition getWriteBatch (c : Chan.chan writeTaskRequest)
  (reqs : list writeTaskRequest) :=
  getWriteBatch_from maxTaskBatchSize c reqs.

(** [sendWriteResponse]: one send per request, in order; each caller is
    parked on its [responseCh], so every send completes. *)
Fixpoint sendWriteResponse_from (reqs : list writeTaskRequest)
  (e : option error) (r : option CreateTasksResponse)
  (d : list (nat * writeTaskResponse)) : list (nat * writeTaskResponse) :=
  match reqs with
  | [] => d
  | req :: rest =>
      sendWriteResponse_from rest e r (d ++ [(responseCh req, mkResponse e r)])
  end.

Definition sendWriteResponse (w : taskWriter) (reqs : list writeTaskRequest)
  (e : option error) (r : option CreateTasksResponse) : taskWriter :=
  set_delivered w (sendWriteResponse_from reqs e r (delivered w)).

(** The [for i, req := range reqs] loop of [taskWriterLoop]: the tasks, the
    rangeID and the maxReadLevel after the requests from index [i] on.
    [taskIDs[i]] panics out of range. *)
Fixpoint collectTasks (reqs : list writeTaskRequest) (i : nat)
  (taskIDs : list Z) (tasks : list CreateTaskInfo) (rid mrl : Z)
  : outcome (list CreateTaskInfo * Z * Z) :=
  match reqs with
  | [] => Done (tasks, rid, mrl)
  | req :: rest =>
      match taskIDs !! i with
      | None => Panic
      | Some id =>
          collectTasks rest (S i) taskIDs
            (tasks ++ [mkCreateTaskInfo id (execution req) (taskInfo req)])
            (if rangeID req >? rid then rangeID req else rid)
            id
      end
  end.

(** The logging on a failed [CreateTasks]: it reads [taskIDs[0]] and
    [taskIDs[batchSize-1]]. *)
Definition logStoreError (w : taskWriter) (e : option error)
  (taskIDs : list Z) (batchSize : nat) : outcome taskWriter :=
  match e with
  | None => Done w
  | Some e' =>
      match taskIDs !! O, taskIDs !! (batchSize - 1)%nat with
      | Some a, Some b =>
          Done (set_logger w (logger w ++ [mkStoreErrorEvent e' a b]))
      | _, _ => Panic
      end
  end.

(** The body of [case request := <-w.appendCh], [c] being the channel after
    that receive.  One iteration is taken as a whole: a request that a
    caller enqueues while the writer drains counts as enqueued before. *)
Definition writeBatch (w : taskWriter) (request : writeTaskRequest)
  (c : Chan.chan writeTaskRequest) : outcome taskWriter :=
  do (reqs, c') <- getWriteBatch c [request];
  let w := set_appendCh w c' in
  let batchSize := length reqs in
  let '(ids, tl') := newTaskIDs (tlMgr w) batchSize in
  let w := set_tlMgr w tl' in
  match ids with
  | inr e => Done (sendWriteResponse w reqs (Some e) None)
  | inl taskIDs =>
      do (tasks, rid, mrl) <- collectTasks reqs O taskIDs [] 0 0;
      let call := mkCreateTasksRequest (domainID (tlID w))
                    (taskListName (tlID w)) (taskType (tlID w)) tasks rid in
      let '((r, e), st') := CreateTasks (taskManager w) call in
      let w := set_taskManager w st' call in
      do w <- logStoreError w e taskIDs batchSize;
      let w := if mrl >? 0 then set_maxReadLevel w mrl else w in
      Done (sendWriteResponse w reqs e r)
  end.

(** The two cases of the [select] in [taskWriterLoop]. *)
Inductive selectCase : Type :=
| CaseAppend
| CaseShutdown.

(** [break writerLoop] followed by the deferred [close(w.appendCh)]. *)
Definition exitLoop (w : taskWriter) : outcome taskWriter :=
  do c <- Chan.close (appendCh w);
  Done (set_loopExited (set_appendCh w c) true).

(** One iteration of [taskWriterLoop] taking case [c]; [None] when the loop
    has returned or the case is not ready. *)
Definition taskWriterLoop_step (w : taskWriter) (c : selectCase)
  : option (outcome taskWriter) :=
  if loopExited w then None
  else
    match c with
    | CaseAppend =>
        match Chan.tryRecv (appendCh w) with
        | Chan.Received request c' => Some (writeBatch w request c')
        | Chan.RecvWouldBlock => None
        | Chan.RecvZero => Some Panic
        end
    | CaseShutdown =>
        if shutdownCh w then Some (exitLoop w) else None
    end.

(** What the writer and its callers do: a caller runs [appendTask], the
    owner closes [shutdownCh], the loop iterates. *)
Inductive step : taskWriter -> taskWriter -> Prop :=
| step_append w e t rid st w' :
    appendTask w e t rid = (st, w') ->
    st <> PanicSendOnClosed ->
    step w w'
| step_shutdown w :
    step w (set_shutdownCh w true)
| step_loop w c w' :
    taskWriterLoop_step w c = Some (Done w') ->
    step w w'.

Inductive steps : taskWriter -> taskWriter -> Prop :=
| steps_refl w : steps w w
| steps_step w1 w2 w3 : steps w1 w2 -> step w2 w3 -> steps w1 w3.

Definition reachable (w : taskWriter) : Prop :=
  exists tl id st, steps (Start (newTaskWriter tl id st false)) w.

(** The response every request of a batch is sent. *)
Definition responsesTo (reqs : list writeTaskRequest)
  (resp : writeTaskResponse) : list (nat * writeTaskResponse) :=
  map (fun req => (responseCh req, resp)) reqs.

(** *** Channel and batch lemmas *)

Lemma getWriteBatch_from_open n (c : Chan.chan writeTaskRequest) reqs :
  Chan.closed c = false ->
  getWriteBatch_from n c reqs =
  Done (reqs ++ take n (Chan.buf c),
        Chan.mk (drop n (Chan.buf c)) (Chan.cap c) false).
Proof.
  revert c reqs. induction n as [|n IH]; intros [b k cl] reqs Hc;
    simpl in Hc; subst cl.
  - simpl. rewrite app_nil_r, drop_0. reflexivity.
  - simpl. unfold Chan.tryRecv. simpl. destruct b as [|x b]; simpl.
    + rewrite app_nil_r. reflexivity.
    + rewrite IH by reflexivity. simpl. rewrite <- app_assoc. reflexivity.
Qed.

Lemma getWriteBatch_open (c : Chan.chan writeTaskRequest) request :
  Chan.closed c = false ->
  getWriteBatch c [request] =
  Done (request :: take maxTaskBatchSize (Chan.buf c),
        Chan.mk (drop maxTaskBatchSize (Chan.buf c)) (Chan.cap c) false).
Proof. intros Hc. unfold getWriteBatch. now rewrite getWriteBatch_from_open. Qed.

Lemma getWriteBatch_from_prefix n (c c' : Chan.chan writeTaskRequest)
  reqs reqs' :
  getWriteBatch_from n c reqs = Done (reqs', c') ->
  exists more, reqs' = reqs ++ more /\ (length more <= n)%nat /\
    Chan.buf c = more ++ Chan.buf c' /\
    Chan.cap c' = Chan.cap c /\ Chan.closed c' = Chan.closed c.
Proof.
  revert c reqs. induction n as [|n IH]; intros c reqs H; simpl in H.
  - inversion H; subst. exists []. rewrite app_nil_r. simpl. auto with lia.
  - unfold Chan.tryRecv in H. destruct c as [b k cl]. simpl in H.
    destruct b as [|x b].
    + destruct cl; [discriminate|]. inversion H; subst. exists [].
      rewrite app_nil_r. simpl. auto with lia.
    + apply IH in H. destruct H as (more & -> & Hl & Hb & Hk & Hcl).
      simpl in *. exists (x :: more). rewrite <- app_assoc. simpl.
      rewrite Hb. auto with lia.
Qed.

Lemma sendWriteResponse_from_app reqs e r d :
  sendWriteResponse_from reqs e r d = d ++ responsesTo reqs (mkResponse e r).
Proof.
  revert d. induction reqs as [|req reqs IH]; intros d; simpl.
  - now rewrite app_nil_r.
  - rewrite IH, <- app_assoc. reflexivity.
Qed.

Lemma last_nonempty_default {A} (l : list A) (a d d' : A) :
  List.last (a :: l) d = List.last (a :: l) d'.
Proof.
  revert a. induction l as [|b l IH]; intros a; [reflexivity|].
  change (List.last (b :: l) d = List.last (b :: l) d'). apply IH.
Qed.


(** What one batch iteration did, from [w] to [w'], for the batch [reqs]:
    either [newTaskIDs] failed, or [CreateTasks] was called once. *)
Inductive batchRun (w : taskWriter) (reqs : list writeTaskRequest)
  (w' : taskWriter) : Prop :=
| run_noTaskIDs e tl' :
    newTaskIDs (tlMgr w) (length reqs) = (inr e, tl') ->
    createTasksCalls w' = createTasksCalls w ->
    taskManager w' = taskManager w ->
    maxReadLevel w' = maxReadLevel w ->
    delivered w' = delivered w ++ responsesTo reqs (mkResponse (Some e) None) ->
    batchRun w reqs w'
| run_createTasks taskIDs tl' tasks rid mrl call r e st' :
    newTaskIDs (tlMgr w) (length reqs) = (inl taskIDs, tl') ->
    collectTasks reqs O taskIDs [] 0 0 = Done (tasks, rid, mrl) ->
    call = mkCreateTasksRequest (domainID (tlID w)) (taskListName (tlID w))
             (taskType (tlID w)) tasks rid ->
    CreateTasks (taskManager w) call = ((r, e), st') ->
    createTasksCalls w' = createTasksCalls w ++ [call] ->
    taskManager w' = st' ->
    maxReadLevel w' = (if mrl >? 0 then mrl else maxReadLevel w) ->
    delivered w' = delivered w ++ responsesTo reqs (mkResponse e r) ->
    batchRun w reqs w'.

Lemma writeBatch_run w request c w' :
  writeBatch w request c = Done w' ->
  exists reqs c',
    getWriteBatch c [request] = Done (reqs, c') /\
    batchRun w reqs w' /\
    appendCh w' = c' /\ loopExited w' = loopExited w /\
    shutdownCh w' = shutdownCh w /\ chanSeq w' = chanSeq w.
Proof.
  unfold writeBatch. intros H.
  destruct (getWriteBatch c [request]) as [[reqs c']|] eqn:Hb; [|discriminate].
  simpl in H. exists reqs, c'. split; [reflexivity|].
  destruct (newTaskIDs (tlMgr w) (length reqs)) as [[taskIDs|e] tl'] eqn:Hn.
  - destruct (collectTasks reqs O taskIDs [] 0 0) as [[[tasks rid] mrl]|] eqn:Hc;
      [|discriminate].
    simpl in H.
    destruct (CreateTasks _ _) as [[r e] st'] eqn:Hct.
    unfold logStoreError in H.
    assert (Hfin : forall w1, loopExited w1 = loopExited w ->
              shutdownCh w1 = shutdownCh w -> chanSeq w1 = chanSeq w ->
              appendCh w1 = c' -> createTasksCalls w1 = createTasksCalls w ++
                [mkCreateTasksRequest (domainID (tlID w)) (taskListName (tlID w))
                   (taskType (tlID w)) tasks rid] ->
              taskManager w1 = st' -> delivered w1 = delivered w ->
              maxReadLevel w1 = maxReadLevel w ->
              Done (sendWriteResponse
                      (if mrl >? 0 then set_maxReadLevel w1 mrl else w1)
                      reqs e r) = Done w' ->
              batchRun w reqs w' /\ appendCh w' = c' /\
              loopExited w' = loopExited w /\ shutdownCh w' = shutdownCh w /\
              chanSeq w' = chanSeq w).
    { intros w1 H1 H2 H3 H4 H5 H6 H7 H8 Hw. inversion Hw; subst w'; clear Hw.
      unfold sendWriteResponse. rewrite sendWriteResponse_from_app.
      destruct (mrl >? 0) eqn:Hm; simpl; (split; [|auto]);
        eapply run_createTasks; eauto; simpl; rewrite ?Hm; try congruence. }
    destruct e as [e'|]; simpl in H.
    + destruct (taskIDs !! O) as [a|]; [|discriminate].
      destruct (taskIDs !! (length reqs - 1)%nat) as [b|]; [|discriminate].
      simpl in H. eapply Hfin; [..|exact H]; reflexivity.
    + eapply Hfin; [..|exact H]; reflexivity.
  - inversion H; subst w'; clear H. unfold sendWriteResponse.
    rewrite sendWriteResponse_from_app. simpl. split; [|auto].
    eapply run_noTaskIDs; eauto.
Qed.



(** *** Invariants of the reachable states *)

Definition writerInv (w : taskWriter) : Prop :=
  Chan.cap (appendCh w) = outstandingTaskAppendsThreshold /\
  Chan.closed (appendCh w) = loopExited w /\
  (length (Chan.buf (appendCh w)) <= outstandingTaskAppendsThreshold)%nat.

Lemma step_writerInv w w' : step w w' -> writerInv w -> writerInv w'.
Proof.
  intros Hs (Hcap & Hcl & Hlen). destruct Hs as [w e t rid st w' Ha Hp| w | w c w' Hl].
  - unfold appendTask, Chan.trySend, Chan.full in Ha.
    destruct (Chan.closed (appendCh w)) eqn:Ec.
    { inversion Ha; subst; congruence. }
    rewrite Hcap in Ha.
    destruct (Nat.leb_spec outstandingTaskAppendsThreshold
                (length (Chan.buf (appendCh w)))) as [Hf|Hf];
      inversion Ha; subst; clear Ha; unfold writerInv; simpl.
    + rewrite Ec. auto.
    + rewrite length_app. simpl. repeat split; [congruence|lia].
  - unfold writerInv. simpl. auto.
  - unfold taskWriterLoop_step in Hl.
    destruct (loopExited w) eqn:Ex; [discriminate|].
    destruct c.
    + unfold Chan.tryRecv in Hl. destruct (appendCh w) as [b k cl] eqn:Ech.
      simpl in *. subst cl k. destruct b as [|request b]; [discriminate|].
      inversion Hl as [Hw]; clear Hl. apply writeBatch_run in Hw.
      destruct Hw as (reqs & c' & Hb & _ & Hc & Hex & _).
      apply getWriteBatch_from_prefix in Hb.
      destruct Hb as (more & _ & _ & Hbuf & Hk & Hcl'). simpl in *.
      unfold writerInv. rewrite Hc, Hex, Hk, Hcl'. repeat split; auto.
      rewrite Hbuf, length_app in Hlen. lia.
    + destruct (shutdownCh w); [|discriminate].
      unfold exitLoop, Chan.close in Hl. rewrite Hcl in Hl. simpl in Hl.
      inversion Hl; subst w'. unfold writerInv. simpl. auto.
Qed.

Lemma reachable_writerInv w : reachable w -> writerInv w.
Proof.
  intros (tl & id & st & Hs).
  remember (Start (newTaskWriter tl id st false)) as w0 eqn:E.
  induction Hs as [w|w1 w2 w3 Hs IH Hst].
  - subst w. unfold writerInv, newTaskWriter. simpl.
    unfold outstandingTaskAppendsThreshold. auto with lia.
  - eapply step_writerInv; eauto.
Qed.

(** Once the loop has returned, nothing is sent on any response channel. *)
Lemma step_after_exit w w' :
  step w w' -> loopExited w = true ->
  loopExited w' = true /\ delivered w' = delivered w.
Proof.
  intros Hs Hex. destruct Hs as [w e t rid st w' Ha Hp| w | w c w' Hl].
  - unfold appendTask in Ha. destruct (Chan.trySend _ _);
      inversion Ha; subst; simpl; auto.
  - simpl. auto.
  - unfold taskWriterLoop_step in Hl. rewrite Hex in Hl. discriminate.
Qed.

Lemma steps_after_exit w w' :
  steps w w' -> loopExited w = true ->
  loopExited w' = true /\ delivered w' = delivered w.
Proof.
  induction 1 as [w|w1 w2 w3 Hs IH Hst]; intros Hex; [auto|].
  destruct (IH Hex) as [H1 H2].
  destruct (step_after_exit _ _ Hst H1) as [H3 H4]. split; congruence.
Qed.

(** Response channels are handed out once: those of the queued requests
    and of the responses sent are all different and all older than the next
    one. *)
Definition channelsInv (w : taskWriter) : Prop :=
  NoDup (map fst (delivered w) ++ map responseCh (Chan.buf (appendCh w))) /\
  Forall (fun ch => (ch < chanSeq w)%nat)
         (map fst (delivered w) ++ map responseCh (Chan.buf (appendCh w))).

Lemma batchRun_delivered w reqs w' :
  batchRun w reqs w' ->
  exists resp, delivered w' = delivered w ++ responsesTo reqs resp.
Proof. intros [? ? _ _ _ _ H|? ? ? ? ? ? ? ? ? _ _ _ _ _ _ _ H]; eauto. Qed.

Lemma map_fst_responsesTo reqs resp :
  map fst (responsesTo reqs resp) = map responseCh reqs.
Proof. unfold responsesTo. rewrite map_map. reflexivity. Qed.

Lemma step_channelsInv w w' : step w w' -> channelsInv w -> channelsInv w'.
Proof.
  intros Hs (Hnd & Hlt). destruct Hs as [w e t rid st w' Ha Hp| w | w c w' Hl].
  - unfold appendTask, Chan.trySend in Ha.
    destruct (Chan.closed (appendCh w)); [inversion Ha; subst; congruence|].
    assert (Hlt' : Forall (fun ch => (ch < S (chanSeq w))%nat)
              (map fst (delivered w) ++ map responseCh (Chan.buf (appendCh w)))).
    { eapply Forall_impl; [exact Hlt|]. simpl. intros; lia. }
    destruct (Chan.full (appendCh w)); inversion Ha; subst; clear Ha;
      unfold channelsInv; simpl; [auto|].
    rewrite map_app, app_assoc. simpl. split.
    + apply NoDup_app. split; [exact Hnd|]. split; [|apply NoDup_singleton].
      intros ch Hin Hin'. apply list_elem_of_singleton in Hin'. subst ch.
      rewrite Forall_forall in Hlt. specialize (Hlt _ Hin). lia.
    + apply Forall_app. split; [exact Hlt'|]. constructor; [lia|constructor].
  - exact (conj Hnd Hlt).
  - unfold taskWriterLoop_step in Hl.
    destruct (loopExited w); [discriminate|]. destruct c.
    + unfold Chan.tryRecv in Hl. destruct (appendCh w) as [b k cl] eqn:Ech.
      simpl in *. destruct b as [|request b];
        [destruct cl; discriminate|].
      inversion Hl as [Hw]; clear Hl. apply writeBatch_run in Hw.
      destruct Hw as (reqs & c' & Hb & Hrun & Hc & _ & _ & Hseq).
      apply batchRun_delivered in Hrun. destruct Hrun as (resp & Hd).
      apply getWriteBatch_from_prefix in Hb.
      destruct Hb as (more & -> & _ & Hbuf & _). simpl in Hbuf.
      unfold channelsInv.
      rewrite Hd, Hc, Hseq, map_app, map_fst_responsesTo, <- app_assoc,
        <- map_app. simpl. rewrite <- Hbuf. auto.
    + destruct (shutdownCh w); [|discriminate].
      unfold exitLoop, Chan.close in Hl.
      destruct (Chan.closed (appendCh w)); [discriminate|].
      inversion Hl; subst w'. exact (conj Hnd Hlt).
Qed.

Lemma reachable_channelsInv w : reachable w -> channelsInv w.
Proof.
  intros (tl & id & st & Hs).
  remember (Start (newTaskWriter tl id st false)) as w0 eqn:E.
  induction Hs as [w|w1 w2 w3 Hs IH Hst].
  - subst w. split; [apply NoDup_nil_2|constructor].
  - eapply step_channelsInv; eauto.
Qed.


Lemma firstResponse_app ch d d' :
  ch ∉ map fst d -> firstResponse ch (d ++ d') = firstResponse ch d'.
Proof.
  induction d as [|[c r] d IH]; intros Hn; [reflexivity|]. simpl in *.
  destruct (Nat.eqb_spec c ch) as [->|Hne].
  - exfalso. apply Hn. left.
  - apply IH. intros Hin. apply Hn. now right.
Qed.

Lemma firstResponse_responsesTo req reqs resp :
  req ∈ reqs ->
  firstResponse (responseCh req) (responsesTo reqs resp) = Some resp.
Proof.
  induction reqs as [|r reqs IH]; intros Hin; [inversion Hin|]. simpl.
  destruct (Nat.eqb_spec (responseCh r) (responseCh req)); [reflexivity|].
  apply IH. inversion Hin; subst; [congruence|assumption].
Qed.

(** *** Properties of [appendTask] and of the writer loop *)

Lemma reachable_appendTask w e t rid :
  reachable w -> loopExited w = false ->
  reachable (snd (appendTask w e t rid)) /\
  loopExited (snd (appendTask w e t rid)) = false.
Proof.
  intros Hr Hex. destruct (reachable_writerInv _ Hr) as (_ & Hcl & _).
  rewrite Hex in Hcl.
  destruct (appendTask w e t rid) as [st w'] eqn:Ha. simpl. split.
  - destruct Hr as (tl & id & s0 & Hs). exists tl, id, s0.
    eapply steps_step; [exact Hs|]. eapply step_append; [exact Ha|].
    unfold appendTask, Chan.trySend in Ha. rewrite Hcl in Ha.
    destruct (Chan.full _); inversion Ha; discriminate.
  - unfold appendTask in Ha.
    destruct (Chan.trySend _ _); inversion Ha; subst; exact Hex.
Qed.





(** C8. Whenever the loop of a reachable writer processes a batch, the
    requests of the batch, a non-empty prefix of the queue, are each sent
    one and the same response, and that is what each of their callers
    returns.  When [newTaskIDs] fails the response carries that error and
    no persistence response; otherwise it carries exactly what the single
    [CreateTasks] call returned: its response with a nil error on success,
    its error on failure. *)
Theorem batch_shared_outcome (w w' : taskWriter) :
  reachable w ->
  taskWriterLoop_step w CaseAppend = Some (Done w') ->
  exists (reqs : list writeTaskRequest) (resp : writeTaskResponse),
    reqs <> [] /\
    Chan.buf (appendCh w) = reqs ++ Chan.buf (appendCh w') /\
    delivered w' = delivered w ++ responsesTo reqs resp /\
    Forall (fun req => awaitResponse w' (responseCh req) =
                       Returned (persistenceResponse resp) (err resp)) reqs /\
    ((createTasksCalls w' = createTasksCalls w /\
      exists e, resp = mkResponse (Some e) None) \/
     (exists call r e st',
        createTasksCalls w' = createTasksCalls w ++ [call] /\
        CreateTasks (taskManager w) call = ((r, e), st') /\
        resp = mkResponse e r)).
Proof.
  intros Hr Hl. destruct (reachable_channelsInv _ Hr) as (Hnd & _).
  unfold taskWriterLoop_step in Hl.
  destruct (loopExited w); [discriminate|].
  unfold Chan.tryRecv in Hl. destruct (Chan.buf (appendCh w)) as [|request b] eqn:Eb;
    [destruct (Chan.closed (appendCh w)); discriminate|].
  inversion Hl as [Hw]; clear Hl. apply writeBatch_run in Hw.
  destruct Hw as (reqs & c' & Hb & Hrun & Hc & _).
  apply getWriteBatch_from_prefix in Hb.
  destruct Hb as (more & -> & _ & Hbuf & _). simpl in Hbuf. subst c'.
  assert (Hcase : exists resp,
            delivered w' = delivered w ++ responsesTo ([request] ++ more) resp /\
            ((createTasksCalls w' = createTasksCalls w /\
              exists e, resp = mkResponse (Some e) None) \/
             (exists call r e st',
                createTasksCalls w' = createTasksCalls w ++ [call] /\
                CreateTasks (taskManager w) call = ((r, e), st') /\
                resp = mkResponse e r))).
  { destruct Hrun as [e tl' _ Hcalls _ _ Hd
                     |taskIDs tl' tasks rid mrl call r e st' _ _ _ Hct Hcalls _ _ Hd].
    - exists (mkResponse (Some e) None). split; [exact Hd|]. left. eauto.
    - exists (mkResponse e r). split; [exact Hd|]. right. eauto 8. }
  destruct Hcase as (resp & Hd & Hres).
  exists ([request] ++ more), resp. split; [discriminate|].
  split; [simpl; now rewrite Hbuf|]. split; [exact Hd|]. split; [|exact Hres].
  apply Forall_forall. intros req Hreq. unfold awaitResponse.
  rewrite Hd, firstResponse_app, (firstResponse_responsesTo _ _ _ Hreq);
    [reflexivity|].
  intros Hin. apply NoDup_app in Hnd. destruct Hnd as (_ & Hdisj & _).
  apply (Hdisj _ Hin). rewrite Hbuf.
  change (request :: more ++ Chan.buf (appendCh w'))
    with (([request] ++ more) ++ Chan.buf (appendCh w')).
  rewrite map_app. apply elem_of_app. left.
  apply list_elem_of_fmap. exists req. auto.
Qed.

(** C6 (as the code has it). In every reachable state the submit channel is
    closed exactly when the writer loop has returned.  When the loop takes
    the shutdown case it returns and closes the channel; the requests still
    queued stay queued, no response is sent to them then, and none is sent
    on any response channel ever after. *)
Theorem shutdown_leaves_pending (w : taskWriter) :
  reachable w ->
  Chan.closed (appendCh w) = loopExited w /\
  forall w', taskWriterLoop_step w CaseShutdown = Some (Done w') ->
    loopExited w' = true /\
    Chan.closed (appendCh w') = true /\
    Chan.buf (appendCh w') = Chan.buf (appendCh w) /\
    delivered w' = delivered w /\
    forall w2, steps w' w2 -> delivered w2 = delivered w.
Proof.
  intros Hr. destruct (reachable_writerInv _ Hr) as (_ & Hcl & _).
  split; [exact Hcl|]. intros w' Hs. unfold taskWriterLoop_step in Hs.
  destruct (loopExited w) eqn:Hex; [discriminate|].
  destruct (shutdownCh w); [|discriminate].
  unfold exitLoop, Chan.close in Hs. rewrite Hcl in Hs. simpl in Hs.
  inversion Hs; subst w'; clear Hs. simpl. repeat split.
  intros w2 Hw2. apply steps_after_exit in Hw2; [|reflexivity].
  destruct Hw2 as [_ ->]. reflexivity.
Qed.

End Writer.

(** *** A reference allocator and store, to run the writer on inputs *)

(** Task IDs are handed out in sequence from the next free number. *)
Definition seqTaskIDs (next : Z) (n : nat) : (list Z + string) * Z :=
  (inl (map (fun i => next + Z.of_nat i) (seq 0 n)), next + Z.of_nat n).

(** A store that holds a range lease: a write under another rangeID fails
    and stores nothing. *)
Record leasedStore : Type := mkLeasedStore {
  leaseRangeID : Z;
  stored : list (@CreateTaskInfo string string)
}.

Definition leasedCreateTasks (st : leasedStore)
  (call : @CreateTasksRequest string string)
  : (option unit * option string) * leasedStore :=
  if RangeID call =? leaseRangeID st
  then ((Some tt, None),
        mkLeasedStore (leaseRangeID st) (stored st ++ Tasks call))
  else ((None, Some "ConditionFailed"%string), st).

Definition busy : string := "ServiceBusy".

Definition refWriter : Type :=
  @taskWriter string string string unit Z leasedStore.

Definition refList : taskListID := mkTaskListID "domain" "list" 0.

(** A new writer over a store leased at rangeID 5, next task ID 1. *)
Definition writer0 : refWriter :=
  Eval vm_compute in
  Start (fun next => next) (newTaskWriter 1 refList (mkLeasedStore 5 []) false).

(** [n] callers submit a task with rangeID [rid], one after the other. *)
Definition submit (n : nat) (rid : Z) (w : refWriter) : refWriter :=
  Nat.iter n (fun w => snd (appendTask busy w "wf"%string "task"%string rid)) w.

Definition refLoop_step : refWriter -> selectCase -> option (outcome refWriter) :=
  taskWriterLoop_step seqTaskIDs leasedCreateTasks.

Lemma submit_reachable n rid :
  reachable busy (fun next => next) seqTaskIDs leasedCreateTasks (submit n rid writer0) /\
  loopExited (submit n rid writer0) = false.
Proof.
  induction n as [|n [IH1 IH2]].
  - split; [|reflexivity]. exists 1, refList, (mkLeasedStore 5 []).
    apply steps_refl.
  - apply (reachable_appendTask busy (fun next => next) seqTaskIDs leasedCreateTasks
             (submit n rid writer0) "wf"%string "task"%string rid IH1 IH2).
Qed.


(** The state after the loop has taken the append case once. *)
Definition afterBatch (w : refWriter) : refWriter :=
  match refLoop_step w CaseAppend with
  | Some (Done w') => w'
  | _ => w
  end.







(** C4 fails on the code: [getWriteBatch] polls [maxTaskBatchSize] times,
    not [maxTaskBatchSize - 1], so with 101 requests queued one iteration
    of the loop hands [CreateTasks] a batch of 101 tasks, one more than
    [maxTaskBatchSize] = 100, and empties the channel. *)
Theorem getWriteBatch_exceeds_maxTaskBatchSize :
  let w := submit 101 5 writer0 in
  exists w' call,
    refLoop_step w CaseAppend = Some (Done w') /\
    createTasksCalls w' = [call] /\
    length (Tasks call) = 101%nat /\
    maxTaskBatchSize = 100%nat /\
    Chan.buf (appendCh w') = [].
Proof.
  intros w. eexists. eexists. split; [vm_compute; reflexivity|].
  split; [reflexivity|]. split; [reflexivity|]. split; reflexivity.
Qed.

(** C8, on inputs: a batch of three requests whose write is accepted; the
    three callers are sent the same response, the store's, with no error,
    and return it. *)
Lemma batch_shared_outcome_witness :
  let w := submit 3 5 writer0 in
  refLoop_step w CaseAppend = Some (Done (afterBatch w)) /\
  delivered (afterBatch w) =
    [(0%nat, mkResponse None (Some tt)); (1%nat, mkResponse None (Some tt));
     (2%nat, mkResponse None (Some tt))] /\
  exists resp,
    Forall (fun ch => awaitResponse (afterBatch w) ch =
                      Returned (persistenceResponse resp) (err resp))
           [0%nat; 1%nat; 2%nat].
Proof.
  intros w.
  assert (Hw : refLoop_step w CaseAppend = Some (Done (afterBatch w)))
    by (vm_compute; reflexivity).
  split; [exact Hw|]. split; [vm_compute; reflexivity|].
  destruct (batch_shared_outcome busy (fun next => next) seqTaskIDs leasedCreateTasks
              w (afterBatch w) (proj1 (submit_reachable 3 5)) Hw)
    as (reqs & resp & _ & Hbuf & _ & Hall & _).
  exists resp.
  assert (Hreqs : reqs = Chan.buf (appendCh w)).
  { change (Chan.buf (appendCh (afterBatch w))) with
      (@nil (@writeTaskRequest string string)) in Hbuf.
    rewrite app_nil_r in Hbuf. symmetry. exact Hbuf. }
  subst reqs. rewrite Forall_forall in Hall. apply Forall_forall.
  intros ch Hch.
  assert (Hin : mkRequest "wf"%string "task"%string 5 ch ∈ Chan.buf (appendCh w)).
  { apply list_elem_of_In in Hch. apply list_elem_of_In. simpl in Hch. simpl.
    intuition (subst; auto). }
  exact (Hall _ Hin).
Defined.

(** A writer with one request queued whose owner has closed [shutdownCh]. *)
Definition stopping : refWriter := set_shutdownCh (submit 1 5 writer0) true.

Definition afterShutdown (w : refWriter) : refWriter :=
  match refLoop_step w CaseShutdown with
  | Some (Done w') => w'
  | _ => w
  end.

Lemma stopping_reachable :
  reachable busy (fun next => next) seqTaskIDs leasedCreateTasks stopping.
Proof.
  exists 1, refList, (mkLeasedStore 5 []).
  eapply steps_step; [eapply steps_step; [apply steps_refl|]|].
  - eapply (step_append busy seqTaskIDs leasedCreateTasks _
              "wf"%string "task"%string 5); [reflexivity|discriminate].
  - apply step_shutdown.
Qed.

(** C6, on inputs: the loop of [stopping] takes the shutdown case; the
    channel is closed, its one request is still queued, nothing was sent. *)
Lemma shutdown_leaves_pending_witness :
  reachable busy (fun next => next) seqTaskIDs leasedCreateTasks stopping /\
  refLoop_step stopping CaseShutdown = Some (Done (afterShutdown stopping)) /\
  Chan.closed (appendCh (afterShutdown stopping)) = true /\
  length (Chan.buf (appendCh (afterShutdown stopping))) = 1%nat /\
  delivered (afterShutdown stopping) = [].
Proof.
  split; [exact stopping_reachable|]. split; [reflexivity|].
  destruct (shutdown_leaves_pending busy (fun next => next) seqTaskIDs leasedCreateTasks
              stopping stopping_reachable) as [_ H].
  destruct (H (afterShutdown stopping) eq_refl) as (_ & Hc & Hb & Hd & _).
  rewrite Hc, Hb, Hd. repeat split.
Defined.

(** C6 as stated fails: the request queued in [stopping] is sent no
    response when the loop shuts down, hence no shutdown error. *)
Lemma pending_request_gets_no_shutdown_error :
  ~ (forall w w' : refWriter,
       reachable busy (fun next => next) seqTaskIDs leasedCreateTasks w ->
       refLoop_step w CaseShutdown = Some (Done w') ->
       Forall (fun req => exists r e,
                 In (responseCh req, r) (delivered w') /\ err r = Some e)
              (Chan.buf (appendCh w))).
Proof.
  intros H.
  specialize (H stopping (afterShutdown stopping) stopping_reachable eq_refl).
  inversion H as [|req l (r & e & Hin & _) _]. destruct Hin.
Qed.

End TaskWriter.

(** ** The matching service (service/matching): Start and Stop *)
Module Matching.

(** Where the goroutine running [Start] stands. *)
Inductive startPc : Type :=
| NotCalled                (* Start has not been called *)
| Initialising             (* between "starting" and "started" *)
| ParkedOnStopC            (* blocked at [<-s.stopC] *)
| Released                 (* the receive has completed *)
| StartReturned            (* after [base.Stop()] *)
| Exited.                  (* [log.Fatalf] *)

(** [stopC] is made by [make(chan struct{})]: it has no buffer, so all of
    its state is the number of receivers parked on it. *)
Record Service : Type := mkService {
  stopC_receivers : nat;
  pc : startPc;
  handlerRunning : bool;
  baseRunning : bool;
  logged : list string
}.

Definition MatchingServiceName : string := "cadence-matching".

Definition NewService : Service := mkService O NotCalled false false [].

Definition logInfo (s : Service) (msg : string) : Service :=
  mkService (stopC_receivers s) (pc s) (handlerRunning s) (baseRunning s)
            (logged s ++ [msg]).

(** One step of the goroutine running [Start]; [persistenceOk] says whether
    [NewCassandraTaskPersistence] returned without error.  [None]: the
    goroutine cannot move, it is blocked or gone. *)
Definition Start_step (persistenceOk : bool) (s : Service) : option Service :=
  match pc s with
  | NotCalled =>
      Some (mkService (stopC_receivers s) Initialising (handlerRunning s)
              (baseRunning s)
              (logged s ++ [MatchingServiceName +:+ " starting"]))
  | Initialising =>
      if persistenceOk
      then Some (mkService (S (stopC_receivers s)) ParkedOnStopC true true
                   (logged s ++ [MatchingServiceName +:+ " started"]))
      else Some (mkService (stopC_receivers s) Exited (handlerRunning s)
                   (baseRunning s)
                   (logged s ++ ["failed to create task persistence"]))
  | ParkedOnStopC => None
  | Released =>
      Some (mkService (stopC_receivers s) StartReturned (handlerRunning s)
              false (logged s))
  | StartReturned => None
  | Exited => None
  end.

(** [Stop]: [select { case s.stopC <- struct{}{}: default: }], then the log
    line.  The send case is ready only when a receiver is parked on
    [stopC]; it hands the value over and lets that receiver go on. *)
Definition Stop (s : Service) : Service :=
  let s1 :=
    match stopC_receivers s with
    | S n => mkService n Released (handlerRunning s) (baseRunning s) (logged s)
    | O => s
    end in
  logInfo s1 (MatchingServiceName +:+ " stopped").

(** What callers and the [Start] goroutine can do, from [NewService] on. *)
Inductive action : Type :=
| CallStop
| StartMoves (persistenceOk : bool).

Definition act (a : action) (s : Service) : Service :=
  match a with
  | CallStop => Stop s
  | StartMoves ok =>
      match Start_step ok s with
      | Some s' => s'
      | None => s
      end
  end.

Definition run (l : list action) (s : Service) : Service :=
  fold_left (fun s a => act a s) l s.

(** A receiver is parked on [stopC] exactly while [Start] is at the receive. *)
Definition parkedInv (s : Service) : Prop :=
  stopC_receivers s = (if pc s is ParkedOnStopC then 1 else 0)%nat.

Lemma act_parkedInv a s : parkedInv s -> parkedInv (act a s).
Proof.
  unfold parkedInv. destruct s as [n p h b l]. simpl. intros ->.
  destruct a as [|ok]; [destruct p; reflexivity|].
  destruct p; simpl; try reflexivity. destruct ok; reflexivity.
Qed.

Lemma run_parkedInv l : forall s, parkedInv s -> parkedInv (run l s).
Proof.
  induction l as [|a l IH]; intros s H; [exact H|].
  simpl. apply IH, act_parkedInv, H.
Qed.

(** The service without its log. *)
Definition running (s : Service) : nat * startPc * bool * bool :=
  (stopC_receivers s, pc s, handlerRunning s, baseRunning s).

Lemma act_running a s1 s2 :
  running s1 = running s2 -> running (act a s1) = running (act a s2).
Proof.
  destruct s1 as [n1 p1 h1 b1 l1], s2 as [n2 p2 h2 b2 l2].
  unfold running. simpl. intros [= -> -> -> ->].
  destruct a as [|ok]; simpl.
  - destruct n2; reflexivity.
  - destruct p2; simpl; try reflexivity. destruct ok; reflexivity.
Qed.

Lemma run_running l : forall s1 s2,
  running s1 = running s2 -> running (run l s1) = running (run l s2).
Proof.
  induction l as [|a l IH]; intros s1 s2 H; [exact H|].
  simpl. apply IH, act_running, H.
Qed.

(** C9. [Stop] always returns, having done one non-blocking send and one
    log line.  In a state reached from [NewService]: when [Start] is not
    parked at [<-s.stopC], [Stop] changes nothing but the log, and whatever
    happens next happens as if [Stop] had not been called: no stop signal
    is kept, the service keeps running; when [Start] is parked there,
    [Stop] releases it and [Start] goes on to [base.Stop()]. *)
Theorem Stop_is_lossy (l : list action) :
  let s := run l NewService in
  logged (Stop s) = logged s ++ [MatchingServiceName +:+ " stopped"] /\
  match pc s with
  | ParkedOnStopC =>
      pc (Stop s) = Released /\ stopC_receivers (Stop s) = O /\
      exists s', Start_step true (Stop s) = Some s' /\
                 pc s' = StartReturned /\ baseRunning s' = false
  | _ =>
      Stop s = logInfo s (MatchingServiceName +:+ " stopped") /\
      forall l' : list action, running (run l' (Stop s)) = running (run l' s)
  end.
Proof.
  intros s. pose proof (run_parkedInv l NewService eq_refl) as Hinv.
  fold s in Hinv. unfold parkedInv in Hinv.
  destruct s as [n p h b lg]. simpl in Hinv. subst n.
  split; [destruct p; reflexivity|].
  destruct p; simpl; repeat split; eauto;
    intros l'; apply run_running; reflexivity.
Qed.

(** A [Stop] that comes before [Start] has reached the receive is lost:
    [Start] then parks for good, with handler and base service running. *)
Example Stop_before_Start_parks :
  let s := run [StartMoves true; CallStop; StartMoves true] NewService in
  pc s = ParkedOnStopC /\ baseRunning s = true /\ handlerRunning s = true /\
  Start_step true s = None.
Proof. repeat split. Qed.

(** A [Stop] that finds [Start] parked shuts the service down. *)
Example Stop_after_Start_parks :
  let s := run [StartMoves true; StartMoves true; CallStop; StartMoves true]
               NewService in
  pc s = StartReturned /\ baseRunning s = false.
Proof. repeat split. Qed.

End Matching.

(** ** The visibility store (common/persistence):
       RecordWorkflowExecutionClosed *)
Module Visibility.

(** Fixed domain values for now *)
Definition domainPartition : Z := 0.
Definition defaultCloseTTLSeconds : Z := 86400.

Definition templateDeleteWorkflowExecutionStarted : string :=
  "DELETE FROM open_executions " +:+
  "WHERE domain_id = ? " +:+
  "AND domain_partition = ? " +:+
  "AND start_time = ? " +:+
  "AND run_id = ?".

Definition templateCreateWorkflowExecutionClosed : string :=
  "INSERT INTO closed_executions (" +:+
  "domain_id, domain_partition, workflow_id, run_id, start_time, close_time, workflow_type_name, status) " +:+
  "VALUES (?, ?, ?, ?, ?, ?, ?, ?) using TTL ?".

(** [workflow.WorkflowExecution]: optional fields, read through getters
    that give the empty string for a missing one. *)
Record WorkflowExecution : Type := mkExecution {
  WorkflowId : option string;
  RunId : option string
}.

Definition GetWorkflowId (e : WorkflowExecution) : string :=
  default ""%string (WorkflowId e).
Definition GetRunId (e : WorkflowExecution) : string :=
  default ""%string (RunId e).

Section Store.

(** [time.Time], the close status, the gocql error, and
    [common.UnixNanoToCQLTimestamp]. *)
Context {Time CloseStatus gocqlError : Type}.
Variable UnixNanoToCQLTimestamp : Z -> Time.
Variable showError : gocqlError -> string.

Record RecordWorkflowExecutionClosedRequest : Type := mkClosedRequest {
  DomainUUID : string;
  Execution : WorkflowExecution;
  WorkflowTypeName : string;
  StartTimestamp : Z;
  CloseTimestamp : Z;
  Status : CloseStatus;
  RetentionSeconds : Z
}.

(** A value bound to a [?] of a statement. *)
Inductive value : Type :=
| VString (s : string)
| VInt (z : Z)
| VTime (t : Time)
| VStatus (st : CloseStatus).

Record statement : Type := mkStatement {
  stmt : string;
  args : list value
}.

Inductive batchType : Type :=
| LoggedBatch
| UnloggedBatch
| CounterBatch.

Record batch : Type := mkBatch {
  kind : batchType;
  entries : list statement;
  defaultTimestamp : option Time
}.

(** [session.NewBatch], [batch.Query], [batch.WithTimestamp] *)
Definition NewBatch (k : batchType) : batch := mkBatch k [] None.
Definition Query (b : batch) (s : string) (a : list value) : batch :=
  mkBatch (kind b) (entries b ++ [mkStatement s a]) (defaultTimestamp b).
Definition WithTimestamp (b : batch) (t : Time) : batch :=
  mkBatch (kind b) (entries b) (Some t).

(** The session: the batches it was given to execute, and what
    [ExecuteBatch] answers. *)
Record session : Type := mkSession {
  executed : list batch;
  answer : batch -> option gocqlError
}.

Definition ExecuteBatch (s : session) (b : batch)
  : option gocqlError * session :=
  (answer s b, mkSession (executed s ++ [b]) (answer s)).

Inductive error : Type :=
| InternalServiceError (Message : string).

Definition RecordWorkflowExecutionClosed (v : session)
  (request : RecordWorkflowExecutionClosedRequest)
  : option error * session :=
  let batch := NewBatch LoggedBatch in
  (* First, remove execution from the open table *)
  let batch := Query batch templateDeleteWorkflowExecutionStarted
    [ VString (DomainUUID request);
      VInt domainPartition;
      VTime (UnixNanoToCQLTimestamp (StartTimestamp request));
      VString (GetRunId (Execution request)) ] in
  (* Next, add a row in the closed table. *)
  (* Find how long to keep the row *)
  let retention := RetentionSeconds request in
  let retention :=
    if retention =? 0 then defaultCloseTTLSeconds else retention in
  let batch := Query batch templateCreateWorkflowExecutionClosed
    [ VString (DomainUUID request);
      VInt domainPartition;
      VString (GetWorkflowId (Execution request));
      VString (GetRunId (Execution request));
      VTime (UnixNanoToCQLTimestamp (StartTimestamp request));
      VTime (UnixNanoToCQLTimestamp (CloseTimestamp request));
      VString (WorkflowTypeName request);
      VStatus (Status request);
      VInt retention ] in
  let batch :=
    WithTimestamp batch (UnixNanoToCQLTimestamp (CloseTimestamp request)) in
  let (err, v') := ExecuteBatch v batch in
  match err with
  | Some e =>
      (Some (InternalServiceError
               ("RecordWorkflowExecutionClosed operation failed. Error: "
                +:+ showError e)), v')
  | None => (None, v')
  end.

(** The value bound to the [?] after [using TTL] in the insert into the
    closed table: the last of its arguments. *)
Definition ttlOf (s : statement) : option value := last (args s).

(** C7. Every call of [RecordWorkflowExecutionClosed] hands the session
    exactly one batch, a logged one, of two statements: first the delete of
    the execution's row of the open table, then the insert into the closed
    table, whose TTL is the request's RetentionSeconds, or 86400 when that
    is zero. *)
Theorem RecordWorkflowExecutionClosed_ttl (v : session)
  (request : RecordWorkflowExecutionClosedRequest) :
  exists del ins,
    executed (snd (RecordWorkflowExecutionClosed v request)) =
      executed v ++ [mkBatch LoggedBatch [del; ins]
         (Some (UnixNanoToCQLTimestamp (CloseTimestamp request)))] /\
    stmt del = templateDeleteWorkflowExecutionStarted /\
    args del = [ VString (DomainUUID request); VInt domainPartition;
                 VTime (UnixNanoToCQLTimestamp (StartTimestamp request));
                 VString (GetRunId (Execution request)) ] /\
    stmt ins = templateCreateWorkflowExecutionClosed /\
    length (args ins) = 9%nat /\
    ttlOf ins =
      Some (VInt (if RetentionSeconds request =? 0 then 86400
                  else RetentionSeconds request)).
Proof.
  unfold RecordWorkflowExecutionClosed, ExecuteBatch. simpl.
  destruct (answer v _); simpl; eexists _, _; repeat split.
Qed.

End Store.

(** With retention left at zero the closed row is kept for a day; with a
    retention of one hour, for an hour. *)
Definition closedTTLs (retention : Z) : list (option (@value string nat)) :=
  let v := mkSession (gocqlError := string) [] (fun _ => None) in
  let r := mkClosedRequest (CloseStatus := nat) "d"
             (mkExecution (Some "w"%string) (Some "r"%string)) "t" 10 20 O
             retention in
  map (fun b => ttlOf (List.last (entries b) (mkStatement ""%string [])))
      (executed (snd (RecordWorkflowExecutionClosed
                        (fun z => "ts"%string) (fun e => e) v r))).

Example closed_ttl_default : closedTTLs 0 = [Some (VInt 86400)].
Proof. reflexivity. Qed.

Example closed_ttl_given : closedTTLs 3600 = [Some (VInt 3600)].
Proof. reflexivity. Qed.

End Visibility.

(** ** The history client that emits metrics (client/history) *)
Module HistoryClient.

(** The operations of the [Client] interface. *)
Inductive operation : Type :=
| OpStartWorkflowExecution
| OpGetWorkflowExecutionNextEventID
| OpRecordDecisionTaskStarted
| OpRecordActivityTaskStarted
| OpRespondDecisionTaskCompleted
| OpRespondActivityTaskCompleted
| OpRespondActivityTaskFailed
| OpRespondActivityTaskCanceled
| OpRecordActivityTaskHeartbeat
| OpRequestCancelWorkflowExecution
| OpSignalWorkflowExecution
| OpTerminateWorkflowExecution
| OpScheduleDecisionTask
| OpRecordChildExecutionCompleted.

(** The metric scopes and names of the metrics package used here. *)
Inductive scope : Type :=
| HistoryClientStartWorkflowExecutionScope
| HistoryClientGetWorkflowExecutionNextEventIDScope
| HistoryClientRecordDecisionTaskStartedScope
| HistoryClientRecordActivityTaskStartedScope
| HistoryClientRespondDecisionTaskCompletedScope
| HistoryClientRespondActivityTaskCompletedScope
| HistoryClientRespondActivityTaskFailedScope
| HistoryClientRespondActivityTaskCanceledScope
| HistoryClientRecordActivityTaskHeartbeatScope
| HistoryClientRequestCancelWorkflowExecutionScope
| HistoryClientSignalWorkflowExecutionScope
| HistoryClientTerminateWorkflowExecutionScope
| HistoryClientScheduleDecisionTaskScope
| HistoryClientRecordChildExecutionCompletedScope.

Inductive metric : Type :=
| CadenceRequests
| CadenceLatency
| CadenceFailures.

(** Code that runs on a state: it returns a value and the state after. *)
Definition prog (St A : Type) : Type := St -> A * St.

Definition ret {St A} (a : A) : prog St A := fun st => (a, st).

Definition bind {St A B} (m : prog St A) (k : A -> prog St B) : prog St B :=
  fun st => let (a, st') := m st in k a st'.

Notation "x <~ m ;; k" := (bind m (fun x => k))
  (at level 62, m at next level, right associativity).
Notation "m ;;; k" := (bind m (fun _ => k))
  (at level 62, right associativity).

Section Clients.

(** [thrift.Context], the Go [error], and the request and response types
    of the operations. *)
Context {Ctx error : Type} {Request Response : operation -> Type}.

(** An operation that answers with a response and an error, and one that
    answers with an error only. *)
Definition answering (St : Type) (op : operation) : Type :=
  Ctx -> Request op -> prog St (option (Response op) * option error).
Definition failing (St : Type) (op : operation) : Type :=
  Ctx -> Request op -> prog St (option error).

(** The interface [Client], implemented over a state [St]. *)
Class Client (St : Type) : Type := {
  StartWorkflowExecution : answering St OpStartWorkflowExecution;
  GetWorkflowExecutionNextEventID :
    answering St OpGetWorkflowExecutionNextEventID;
  RecordDecisionTaskStarted : answering St OpRecordDecisionTaskStarted;
  RecordActivityTaskStarted : answering St OpRecordActivityTaskStarted;
  RespondDecisionTaskCompleted : failing St OpRespondDecisionTaskCompleted;
  RespondActivityTaskCompleted : failing St OpRespondActivityTaskCompleted;
  RespondActivityTaskFailed : failing St OpRespondActivityTaskFailed;
  RespondActivityTaskCanceled : failing St OpRespondActivityTaskCanceled;
  RecordActivityTaskHeartbeat : answering St OpRecordActivityTaskHeartbeat;
  RequestCancelWorkflowExecution :
    failing St OpRequestCancelWorkflowExecution;
  SignalWorkflowExecution : failing St OpSignalWorkflowExecution;
  TerminateWorkflowExecution : failing St OpTerminateWorkflowExecution;
  ScheduleDecisionTask : failing St OpScheduleDecisionTask;
  RecordChildExecutionCompleted : failing St OpRecordChildExecutionCompleted
}.

(** [metrics.Client] and its stopwatch, over the state [Metrics]. *)
Context {Metrics Stopwatch : Type}.
Variable IncCounter : scope -> metric -> Metrics -> Metrics.
Variable StartTimer : scope -> metric -> Metrics -> Stopwatch * Metrics.
Variable StopTimer : Stopwatch -> Metrics -> Metrics.

(** The wrapped client, over the state [S]. *)
Context {S : Type} (client : Client S).

(** [metricClient] holds both: its state is the pair of their states. *)
Definition c_client {A} (call : prog S A) : prog (S * Metrics) A :=
  fun st => let (a, s') := call (fst st) in (a, (s', snd st)).

Definition c_metricsClient_IncCounter (sc : scope) (mt : metric)
  : prog (S * Metrics) unit :=
  fun st => (tt, (fst st, IncCounter sc mt (snd st))).

Definition c_metricsClient_StartTimer (sc : scope) (mt : metric)
  : prog (S * Metrics) Stopwatch :=
  fun st => let (sw, m') := StartTimer sc mt (snd st) in (sw, (fst st, m')).

Definition sw_Stop (sw : Stopwatch) : prog (S * Metrics) unit :=
  fun st => (tt, (fst st, StopTimer sw (snd st))).

(** [if err != nil { ... }] *)
Definition ifErr {St} (err : option error) (p : prog St unit)
  : prog St unit :=
  match err with
  | Some _ => p
  | None => ret tt
  end.

Definition mc_StartWorkflowExecution
  : answering (S * Metrics) OpStartWorkflowExecution := fun context request =>
  c_metricsClient_IncCounter HistoryClientStartWorkflowExecutionScope CadenceRequests ;;;
  sw <~ c_metricsClient_StartTimer HistoryClientStartWorkflowExecutionScope CadenceLatency ;;
  r <~ c_client (StartWorkflowExecution context request) ;;
  sw_Stop sw ;;;
  ifErr (snd r) (c_metricsClient_IncCounter HistoryClientStartWorkflowExecutionScope CadenceFailures) ;;;
  ret (fst r, snd r).

Definition mc_GetWorkflowExecutionNextEventID
  : answering (S * Metrics) OpGetWorkflowExecutionNextEventID := fun context request =>
  c_metricsClient_IncCounter HistoryClientGetWorkflowExecutionNextEventIDScope CadenceRequests ;;;
  sw <~ c_metricsClient_StartTimer HistoryClientGetWorkflowExecutionNextEventIDScope CadenceLatency ;;
  r <~ c_client (GetWorkflowExecutionNextEventID context request) ;;
  sw_Stop sw ;;;
  ifErr (snd r) (c_metricsClient_IncCounter HistoryClientGetWorkflowExecutionNextEventIDScope CadenceFailures) ;;;
  ret (fst r, snd r).

Definition mc_RecordDecisionTaskStarted
  : answering (S * Metrics) OpRecordDecisionTaskStarted := fun context request =>
  c_metricsClient_IncCounter HistoryClientRecordDecisionTaskStartedScope CadenceRequests ;;;
  sw <~ c_metricsClient_StartTimer HistoryClientRecordDecisionTaskStartedScope CadenceLatency ;;
  r <~ c_client (RecordDecisionTaskStarted context request) ;;
  sw_Stop sw ;;;
  ifErr (snd r) (c_metricsClient_IncCounter HistoryClientRecordDecisionTaskStartedScope CadenceFailures) ;;;
  ret (fst r, snd r).

Definition mc_RecordActivityTaskStarted
  : answering (S * Metrics) OpRecordActivityTaskStarted := fun context request =>
  c_metricsClient_IncCounter HistoryClientRecordActivityTaskStartedScope CadenceRequests ;;;
  sw <~ c_metricsClient_StartTimer HistoryClientRecordActivityTaskStartedScope CadenceLatency ;;
  r <~ c_client (RecordActivityTaskStarted context request) ;;
  sw_Stop sw ;;;
  ifErr (snd r) (c_metricsClient_IncCounter HistoryClientRecordActivityTaskStartedScope CadenceFailures) ;;;
  ret (fst r, snd r).

Definition mc_RespondDecisionTaskCompleted
  : failing (S * Metrics) OpRespondDecisionTaskCompleted := fun context request =>
  c_metricsClient_IncCounter HistoryClientRespondDecisionTaskCompletedScope CadenceRequests ;;;
  sw <~ c_metricsClient_StartTimer HistoryClientRespondDecisionTaskCompletedScope CadenceLatency ;;
  err <~ c_client (RespondDecisionTaskCompleted context request) ;;
  sw_Stop sw ;;;
  ifErr err (c_metricsClient_IncCounter HistoryClientRespondDecisionTaskCompletedScope CadenceFailures) ;;;
  ret err.

Definition mc_RespondActivityTaskCompleted
  : failing (S * Metrics) OpRespondActivityTaskCompleted := fun context request =>
  c_metricsClient_IncCounter HistoryClientRespondActivityTaskCompletedScope CadenceRequests ;;;
  sw <~ c_metricsClient_StartTimer HistoryClientRespondActivityTaskCompletedScope CadenceLatency ;;
  err <~ c_client (RespondActivityTaskCompleted context request) ;;
  sw_Stop sw ;;;
  ifErr err (c_metricsClient_IncCounter HistoryClientRespondActivityTaskCompletedScope CadenceFailures) ;;;
  ret err.

Definition mc_RespondActivityTaskFailed
  : failing (S * Metrics) OpRespondActivityTaskFailed := fun context request =>
  c_metricsClient_IncCounter HistoryClientRespondActivityTaskFailedScope CadenceRequests ;;;
  sw <~ c_metricsClient_StartTimer HistoryClientRespondActivityTaskFailedScope CadenceLatency ;;
  err <~ c_client (RespondActivityTaskFailed context request) ;;
  sw_Stop sw ;;;
  ifErr err (c_metricsClient_IncCounter HistoryClientRespondActivityTaskFailedScope CadenceFailures) ;;;
  ret err.

Definition mc_RespondActivityTaskCanceled
  : failing (S * Metrics) OpRespondActivityTaskCanceled := fun context request =>
  c_metricsClient_IncCounter HistoryClientRespondActivityTaskCanceledScope CadenceRequests ;;;
  sw <~ c_metricsClient_StartTimer HistoryClientRespondActivityTaskCanceledScope CadenceLatency ;;
  err <~ c_client (RespondActivityTaskCanceled context request) ;;
  sw_Stop sw ;;;
  ifErr err (c_metricsClient_IncCounter HistoryClientRespondActivityTaskCanceledScope CadenceFailures) ;;;
  ret err.

Definition mc_RecordActivityTaskHeartbeat
  : answering (S * Metrics) OpRecordActivityTaskHeartbeat := fun context request =>
  c_metricsClient_IncCounter HistoryClientRecordActivityTaskHeartbeatScope CadenceRequests ;;;
  sw <~ c_metricsClient_StartTimer HistoryClientRecordActivityTaskHeartbeatScope CadenceLatency ;;
  r <~ c_client (RecordActivityTaskHeartbeat context request) ;;
  sw_Stop sw ;;;
  ifErr (snd r) (c_metricsClient_IncCounter HistoryClientRecordActivityTaskHeartbeatScope CadenceFailures) ;;;
  ret (fst r, snd r).

Definition mc_RequestCancelWorkflowExecution
  : failing (S * Metrics) OpRequestCancelWorkflowExecution := fun context request =>
  c_metricsClient_IncCounter HistoryClientRequestCancelWorkflowExecutionScope CadenceRequests ;;;
  sw <~ c_metricsClient_StartTimer HistoryClientRequestCancelWorkflowExecutionScope CadenceLatency ;;
  err <~ c_client (RequestCancelWorkflowExecution context request) ;;
  sw_Stop sw ;;;
  ifErr err (c_metricsClient_IncCounter HistoryClientRequestCancelWorkflowExecutionScope CadenceFailures) ;;;
  ret err.

Definition mc_SignalWorkflowExecution
  : failing (S * Metrics) OpSignalWorkflowExecution := fun context request =>
  c_metricsClient_IncCounter HistoryClientSignalWorkflowExecutionScope CadenceRequests ;;;
  sw <~ c_metricsClient_StartTimer HistoryClientSignalWorkflowExecutionScope CadenceLatency ;;
  err <~ c_client (SignalWorkflowExecution context request) ;;
  sw_Stop sw ;;;
  ifErr err (c_metricsClient_IncCounter HistoryClientSignalWorkflowExecutionScope CadenceFailures) ;;;
  ret err.

Definition mc_TerminateWorkflowExecution
  : failing (S * Metrics) OpTerminateWorkflowExecution := fun context request =>
  c_metricsClient_IncCounter HistoryClientTerminateWorkflowExecutionScope CadenceRequests ;;;
  sw <~ c_metricsClient_StartTimer HistoryClientTerminateWorkflowExecutionScope CadenceLatency ;;
  err <~ c_client (TerminateWorkflowExecution context request) ;;
  sw_Stop sw ;;;
  ifErr err (c_metricsClient_IncCounter HistoryClientTerminateWorkflowExecutionScope CadenceFailures) ;;;
  ret err.

Definition mc_ScheduleDecisionTask
  : failing (S * Metrics) OpScheduleDecisionTask := fun context request =>
  c_metricsClient_IncCounter HistoryClientScheduleDecisionTaskScope CadenceRequests ;;;
  sw <~ c_metricsClient_StartTimer HistoryClientScheduleDecisionTaskScope CadenceLatency ;;
  err <~ c_client (ScheduleDecisionTask context request) ;;
  sw_Stop sw ;;;
  ifErr err (c_metricsClient_IncCounter HistoryClientScheduleDecisionTaskScope CadenceFailures) ;;;
  ret err.

Definition mc_RecordChildExecutionCompleted
  : failing (S * Metrics) OpRecordChildExecutionCompleted := fun context request =>
  c_metricsClient_IncCounter HistoryClientRecordChildExecutionCompletedScope CadenceRequests ;;;
  sw <~ c_metricsClient_StartTimer HistoryClientRecordChildExecutionCompletedScope CadenceLatency ;;
  err <~ c_client (RecordChildExecutionCompleted context request) ;;
  sw_Stop sw ;;;
  ifErr err (c_metricsClient_IncCounter HistoryClientRecordChildExecutionCompletedScope CadenceFailures) ;;;
  ret err.

(** [metricClient] implements [Client], as the source asserts. *)
#[local] Instance metricClient : Client (S * Metrics) := {
  StartWorkflowExecution := mc_StartWorkflowExecution;
  GetWorkflowExecutionNextEventID := mc_GetWorkflowExecutionNextEventID;
  RecordDecisionTaskStarted := mc_RecordDecisionTaskStarted;
  RecordActivityTaskStarted := mc_RecordActivityTaskStarted;
  RespondDecisionTaskCompleted := mc_RespondDecisionTaskCompleted;
  RespondActivityTaskCompleted := mc_RespondActivityTaskCompleted;
  RespondActivityTaskFailed := mc_RespondActivityTaskFailed;
  RespondActivityTaskCanceled := mc_RespondActivityTaskCanceled;
  RecordActivityTaskHeartbeat := mc_RecordActivityTaskHeartbeat;
  RequestCancelWorkflowExecution := mc_RequestCancelWorkflowExecution;
  SignalWorkflowExecution := mc_SignalWorkflowExecution;
  TerminateWorkflowExecution := mc_TerminateWorkflowExecution;
  ScheduleDecisionTask := mc_ScheduleDecisionTask;
  RecordChildExecutionCompleted := mc_RecordChildExecutionCompleted
}.

(** What a caller gets back from an operation. *)
Definition ResultOf (op : operation) : Type :=
  match op with
  | OpStartWorkflowExecution
  | OpGetWorkflowExecutionNextEventID
  | OpRecordDecisionTaskStarted
  | OpRecordActivityTaskStarted
  | OpRecordActivityTaskHeartbeat => option (Response op) * option error
  | _ => option error
  end.

(** A call of operation [op] on a client. *)
Definition invoke {St} (c : Client St) (op : operation)
  : Ctx -> Request op -> prog St (ResultOf op) :=
  match op return Ctx -> Request op -> prog St (ResultOf op) with
  | OpStartWorkflowExecution => StartWorkflowExecution
  | OpGetWorkflowExecutionNextEventID => GetWorkflowExecutionNextEventID
  | OpRecordDecisionTaskStarted => RecordDecisionTaskStarted
  | OpRecordActivityTaskStarted => RecordActivityTaskStarted
  | OpRespondDecisionTaskCompleted => RespondDecisionTaskCompleted
  | OpRespondActivityTaskCompleted => RespondActivityTaskCompleted
  | OpRespondActivityTaskFailed => RespondActivityTaskFailed
  | OpRespondActivityTaskCanceled => RespondActivityTaskCanceled
  | OpRecordActivityTaskHeartbeat => RecordActivityTaskHeartbeat
  | OpRequestCancelWorkflowExecution => RequestCancelWorkflowExecution
  | OpSignalWorkflowExecution => SignalWorkflowExecution
  | OpTerminateWorkflowExecution => TerminateWorkflowExecution
  | OpScheduleDecisionTask => ScheduleDecisionTask
  | OpRecordChildExecutionCompleted => RecordChildExecutionCompleted
  end.

Ltac run_wrapper :=
  cbn [invoke metricClient StartWorkflowExecution
       GetWorkflowExecutionNextEventID RecordDecisionTaskStarted
       RecordActivityTaskStarted RespondDecisionTaskCompleted
       RespondActivityTaskCompleted RespondActivityTaskFailed
       RespondActivityTaskCanceled RecordActivityTaskHeartbeat
       RequestCancelWorkflowExecution SignalWorkflowExecution
       TerminateWorkflowExecution ScheduleDecisionTask
       RecordChildExecutionCompleted];
  cbv [mc_StartWorkflowExecution mc_GetWorkflowExecutionNextEventID
       mc_RecordDecisionTaskStarted mc_RecordActivityTaskStarted
       mc_RespondDecisionTaskCompleted mc_RespondActivityTaskCompleted
       mc_RespondActivityTaskFailed mc_RespondActivityTaskCanceled
       mc_RecordActivityTaskHeartbeat mc_RequestCancelWorkflowExecution
       mc_SignalWorkflowExecution mc_TerminateWorkflowExecution
       mc_ScheduleDecisionTask mc_RecordChildExecutionCompleted
       bind ret c_client c_metricsClient_IncCounter
       c_metricsClient_StartTimer sw_Stop ifErr];
  cbn [fst snd].

(** C10. For every operation, context, request and states of the wrapped
    client and of the metrics client, the call through [metricClient]
    returns exactly the response and error the wrapped client returns for
    that call, and leaves the wrapped client in the same state. *)
Theorem metricClient_transparent (op : operation) (context : Ctx)
  (request : Request op) (s : S) (m : Metrics) :
  let (r, st') := invoke metricClient op context request (s, m) in
  (r, fst st') = invoke client op context request s.
Proof.
  destruct op; run_wrapper;
    match goal with
    | |- context [StartTimer ?sc ?mt ?x] => destruct (StartTimer sc mt x)
    end;
    cbn [fst snd];
    match goal with
    | |- context [?f context request s] =>
        destruct (f context request s) as [r s']
    end;
    try destruct r as [resp [e|]]; try destruct r as [e|]; reflexivity.
Qed.

(** The wrapper does count: one request, and one failure on an error. *)
Lemma metricClient_counts_StartWorkflowExecution (context : Ctx)
  (request : Request OpStartWorkflowExecution) (s : S) (m : Metrics) :
  let m1 := IncCounter HistoryClientStartWorkflowExecutionScope
              CadenceRequests m in
  let (sw, m2) := StartTimer HistoryClientStartWorkflowExecutionScope
                    CadenceLatency m1 in
  let m3 := StopTimer sw m2 in
  let (r, s') := StartWorkflowExecution context request s in
  snd (snd (mc_StartWorkflowExecution context request (s, m))) =
  match snd r with
  | Some _ => IncCounter HistoryClientStartWorkflowExecutionScope
                CadenceFailures m3
  | None => m3
  end.
Proof.
  run_wrapper. destruct (StartTimer _ _ _) as [sw m2]. cbn [fst snd].
  destruct (StartWorkflowExecution context request s) as [[resp [e|]] s'];
    reflexivity.
Qed.

End Clients.

End HistoryClient.

(** ** The timer queue processor (service/history) *)
Module TimerQueue.

(** How [UpdateWorkflowExecution] can fail. *)
Inductive updateError : Type :=
| ConditionFailed                 (* nextEventID mismatch *)
| OtherError (msg : string).

(** How the processing of one due timer task ends. *)
Inductive firing : Type :=
| Fired          (* timeout event committed, task deleted *)
| Stale          (* validity check failed, task deleted *)
| Abandoned.     (* given up for this cycle, task kept *)

Section Processor.

Context {mutableState historyEvent timerTask : Type}.

(** The validity check of the task against the state read, the timeout
    event it gives rise to, and the version the update is conditional on. *)
Variable stillValid : timerTask -> mutableState -> bool.
Variable timeoutEvent : timerTask -> mutableState -> historyEvent.
Variable nextEventID : mutableState -> Z.

(** The execution manager as the processor sees it, in the manner of the
    mock of [TestTimerUpdateTimesOut]: what the n-th
    [GetWorkflowMutableState] and the n-th [UpdateWorkflowExecution]
    answer, and a record of the calls made. *)
Record executionManager : Type := mkManager {
  mutableStateAnswers : nat -> mutableState;
  updateAnswers : nat -> option updateError;
  reads : nat;
  updates : list (Z * historyEvent);
  history : list historyEvent;
  completedTimers : list timerTask
}.

Definition GetWorkflowMutableState (m : executionManager)
  : mutableState * executionManager :=
  (mutableStateAnswers m (reads m),
   mkManager (mutableStateAnswers m) (updateAnswers m) (S (reads m))
             (updates m) (history m) (completedTimers m)).

(** The update commits its event only when it succeeds. *)
Definition UpdateWorkflowExecution (m : executionManager) (condition : Z)
  (ev : historyEvent) : option updateError * executionManager :=
  let answer := updateAnswers m (length (updates m)) in
  (answer,
   mkManager (mutableStateAnswers m) (updateAnswers m) (reads m)
             (updates m ++ [(condition, ev)])
             (if answer is None then history m ++ [ev] else history m)
             (completedTimers m)).

Definition CompleteTimerTask (m : executionManager) (t : timerTask)
  : executionManager :=
  mkManager (mutableStateAnswers m) (updateAnswers m) (reads m)
            (updates m) (history m) (completedTimers m ++ [t]).

Record timerQueueProcessor : Type := mkProcessor {
  timerFiredCount : nat
}.

(** Modelled from the spec: the timer queue processor itself
    (timerQueueProcessorImpl) is not among the sources, only its test is.
    This is step 3 of the algorithm of section 4.5 for one due task: load
    the mutable state; if the task is no longer live, delete it silently;
    otherwise emit the timeout event and commit by the conditional update;
    on success delete the task and count it in [timerFiredCount]; on a
    version mismatch start over from the load, at most [budget] attempts in
    all, then abandon this cycle; any other error abandons the cycle. *)
Fixpoint processTimerTask (budget : nat) (t : timerTask)
  (m : executionManager) (p : timerQueueProcessor)
  : firing * executionManager * timerQueueProcessor :=
  match budget with
  | O => (Abandoned, m, p)
  | S budget' =>
      let (ms, m1) := GetWorkflowMutableState m in
      if stillValid t ms then
        let (err, m2) :=
          UpdateWorkflowExecution m1 (nextEventID ms) (timeoutEvent t ms) in
        match err with
        | None =>
            (Fired, CompleteTimerTask m2 t,
             mkProcessor (S (timerFiredCount p)))
        | Some ConditionFailed => processTimerTask budget' t m2 p
        | Some (OtherError _) => (Abandoned, m2, p)
        end
      else (Stale, CompleteTimerTask m1 t, p)
  end.

(** Modelled from the spec: a task abandoned in one cycle is still in the
    index and is seen again by the next poll; [cycles] bounds the polls. *)
Fixpoint pollTimerTask (cycles budget : nat) (t : timerTask)
  (m : executionManager) (p : timerQueueProcessor)
  : firing * executionManager * timerQueueProcessor :=
  match cycles with
  | O => (Abandoned, m, p)
  | S cycles' =>
      match processTimerTask budget t m p with
      | (Abandoned, m', p') => pollTimerTask cycles' budget t m' p'
      | done => done
      end
  end.

(** C5. When the task stays live, the first [k] conditional updates fail
    with a version mismatch and the next one commits, with [k] below the
    retry budget: the processor reads the state again before each attempt
    ([k + 1] reads, [k + 1] updates), ends with the timer fired, commits
    exactly one timeout event, the one built from the last state read,
    deletes the task, and raises [timerFiredCount] by exactly one. *)
Theorem retry_fires_once (k budget : nat) (t : timerTask)
  (m : executionManager) (p : timerQueueProcessor) :
  (k < budget)%nat ->
  (forall i, (i <= k)%nat ->
     stillValid t (mutableStateAnswers m (reads m + i)) = true) ->
  (forall i, (i < k)%nat ->
     updateAnswers m (length (updates m) + i) = Some ConditionFailed) ->
  updateAnswers m (length (updates m) + k) = None ->
  let '(res, m', p') := processTimerTask budget t m p in
  res = Fired /\
  timerFiredCount p' = S (timerFiredCount p) /\
  history m' =
    history m ++ [timeoutEvent t (mutableStateAnswers m (reads m + k))] /\
  reads m' = (reads m + S k)%nat /\
  length (updates m') = (length (updates m) + S k)%nat /\
  completedTimers m' = completedTimers m ++ [t].
Proof.
  revert budget m. induction k as [|k IH]; intros budget m Hb Hv Hf Hs;
    (destruct budget as [|budget]; [lia|]); simpl.
  - rewrite Nat.add_0_r in Hs. specialize (Hv O (Nat.le_refl _)).
    rewrite Nat.add_0_r in Hv. rewrite Hv.
    unfold UpdateWorkflowExecution. simpl. rewrite Hs. simpl.
    rewrite Nat.add_0_r, length_app. simpl. repeat split; lia.
  - pose proof (Hv O ltac:(lia)) as Hv0. rewrite Nat.add_0_r in Hv0.
    rewrite Hv0. unfold UpdateWorkflowExecution. simpl.
    pose proof (Hf O ltac:(lia)) as Hf0. rewrite Nat.add_0_r in Hf0.
    rewrite Hf0.
    match goal with
    | |- context [processTimerTask budget t ?m2 p] =>
        specialize (IH budget m2)
    end.
    simpl in IH. rewrite length_app in IH. simpl in IH.
    assert (E1 : forall i, (S (reads m + i) = reads m + S i)%nat) by (intros; lia).
    assert (E2 : forall i, (length (updates m) + 1 + i =
                            length (updates m) + S i)%nat) by (intros; lia).
    destruct (processTimerTask budget t _ p) as [[res m'] p'].
    destruct IH as (H1 & H2 & H3 & H4 & H5 & H6).
    + lia.
    + intros i Hi. rewrite E1. apply Hv. lia.
    + intros i Hi. rewrite E2. apply Hf. lia.
    + rewrite E2. exact Hs.
    + rewrite E1 in H3. repeat split; auto; lia.
Qed.

End Processor.

(** *** The scenario of [TestTimerUpdateTimesOut] *)

(** The mutable state of the test: three events written, so the next event
    ID is 4, and a decision scheduled by event 2 and started by event 3. *)
Record decisionState : Type := mkDecisionState {
  NextEventID : Z;
  decisionScheduleID : Z;
  decisionStartedID : option Z
}.

Record timerTaskInfo : Type := mkTimerTask {
  TaskID : Z;
  EventID : Z
}.

Inductive timedOut : Type :=
| DecisionTaskTimedOut (eventID scheduledEventID : Z).

Definition gwmsResponse : decisionState := mkDecisionState 4 2 (Some 3).

(** The decision StartToClose timer task of the test, taskID 100, for the
    decision scheduled by event 2. *)
Definition timerTask : timerTaskInfo := mkTimerTask 100 2.

(** A decision StartToClose timeout is live while that decision is
    started and not completed. *)
Definition decisionStarted (t : timerTaskInfo) (ms : decisionState) : bool :=
  (decisionScheduleID ms =? EventID t) && bool_decide (is_Some (decisionStartedID ms)).

Definition decisionTimedOut (t : timerTaskInfo) (ms : decisionState)
  : timedOut :=
  DecisionTaskTimedOut (NextEventID ms) (EventID t).

(** The execution manager whose first update answers [first] and whose
    later updates succeed. *)
Definition mockExecutionMgr (first : updateError)
  : @executionManager decisionState timedOut timerTaskInfo :=
  mkManager (fun _ => gwmsResponse)
            (fun n => if n is O then Some first else None)
            O [] [] [].

Definition runTest (cycles budget : nat) (first : updateError) :=
  pollTimerTask decisionStarted decisionTimedOut NextEventID cycles budget
    timerTask (mockExecutionMgr first) (mkProcessor O).

(** C5, on inputs: the first update fails on the version, the second
    commits; the count ends at 1 and one timeout event is in the history. *)
Lemma retry_fires_once_witness :
  let '(res, m', p') :=
    processTimerTask decisionStarted decisionTimedOut NextEventID 2 timerTask
      (mockExecutionMgr ConditionFailed) (mkProcessor O) in
  res = Fired /\ timerFiredCount p' = 1%nat /\
  history m' = [DecisionTaskTimedOut 4 2] /\
  reads m' = 2%nat /\ length (updates m') = 2%nat /\
  completedTimers m' = [timerTask].
Proof.
  refine (retry_fires_once decisionStarted decisionTimedOut NextEventID
            1 2 timerTask (mockExecutionMgr ConditionFailed) (mkProcessor O)
            _ _ _ _).
  - lia.
  - intros i _. reflexivity.
  - intros i Hi. assert (i = O) as -> by lia. reflexivity.
  - reflexivity.
Defined.

(** With the error the test itself injects, a plain "FAILED", the first
    cycle is abandoned and the next poll fires the timer: the count is 1
    all the same. *)
Example test_timer_update_times_out :
  let '(res, m', p') := runTest 2 2 (OtherError "FAILED") in
  res = Fired /\ timerFiredCount p' = 1%nat /\
  history m' = [DecisionTaskTimedOut 4 2].
Proof. repeat split. Qed.

End TimerQueue.

(** ** More on the task writer: what an iteration does, and what the writer
       and its callers can and cannot bring about *)
Module TaskWriterProps.
Import TaskWriter.

Section Iteration.

Context {error WorkflowExecution TaskInfo CreateTasksResponse : Type}.
Context {TL Store : Type}.
Variable createServiceBusyError : error.
Variable getTaskSequenceNumber : TL -> Z.
Variable newTaskIDs : TL -> nat -> (list Z + error) * TL.
Variable CreateTasks :
  Store -> @CreateTasksRequest WorkflowExecution TaskInfo ->
  (option CreateTasksResponse * option error) * Store.

Local Abbreviation writer :=
  (@taskWriter error WorkflowExecution TaskInfo CreateTasksResponse TL Store).
Local Abbreviation request := (@writeTaskRequest WorkflowExecution TaskInfo).
Local Abbreviation Reachable :=
  (reachable createServiceBusyError getTaskSequenceNumber newTaskIDs
             CreateTasks).
Local Abbreviation Steps :=
  (steps createServiceBusyError newTaskIDs CreateTasks).
Local Abbreviation Step :=
  (step createServiceBusyError newTaskIDs CreateTasks).
Local Abbreviation loopStep := (taskWriterLoop_step newTaskIDs CreateTasks).

(** The task built for a request and the task ID it is given. *)
Definition taskOf (id : Z) (req : request)
  : @CreateTaskInfo WorkflowExecution TaskInfo :=
  mkCreateTaskInfo id (execution req) (taskInfo req).

(** The requests one iteration takes off a queue: the head and up to
    [maxTaskBatchSize] more. *)
Definition batchOf (queue : list request) : list request :=
  take (S maxTaskBatchSize) queue.

(** The range loop in closed form: it panics exactly when the IDs from
    index [i] on are fewer than the requests. *)
Lemma collectTasks_closed (reqs : list request) :
  forall i taskIDs tasks rid mrl,
  collectTasks reqs i taskIDs tasks rid mrl =
  if Nat.leb (length reqs) (length (drop i taskIDs))
  then Done (tasks ++ zip_with taskOf (drop i taskIDs) reqs,
             fold_left Z.max (map rangeID reqs) rid,
             List.last (take (length reqs) (drop i taskIDs)) mrl)
  else Panic.
Proof.
  induction reqs as [|req reqs IH]; intros i taskIDs tasks rid mrl; simpl.
  - destruct (drop i taskIDs); simpl; now rewrite app_nil_r.
  - destruct (taskIDs !! i) as [id|] eqn:Hi.
    + rewrite (drop_S _ _ _ Hi). simpl. rewrite IH.
      destruct (Nat.leb (length reqs) (length (drop (S i) taskIDs))) eqn:E;
        [|reflexivity].
      rewrite <- app_assoc. simpl. f_equal. f_equal; [f_equal|].
      * destruct (Z.gtb_spec (rangeID req) rid); f_equal; lia.
      * destruct (take (length reqs) (drop (S i) taskIDs)) eqn:Et;
          [reflexivity|]. apply last_nonempty_default.
    + apply lookup_ge_None in Hi. rewrite drop_ge by lia. reflexivity.
Qed.

(** The writer after an iteration whose ID allocation failed with [e]. *)
Definition afterAllocationFailure (w : writer) (reqs : list request)
  (c' : Chan.chan request) (tl' : TL) (e : error) : writer :=
  mkWriter tl' (tlID w) (taskManager w) c' (maxReadLevel w) (shutdownCh w)
    (logger w) (chanSeq w)
    (delivered w ++ responsesTo reqs (mkResponse (Some e) None))
    (createTasksCalls w) (loopExited w).

(** The request an iteration hands to [CreateTasks]. *)
Definition callFor (w : writer) (reqs : list request) (taskIDs : list Z)
  : @CreateTasksRequest WorkflowExecution TaskInfo :=
  mkCreateTasksRequest (domainID (tlID w)) (taskListName (tlID w))
    (taskType (tlID w)) (zip_with taskOf taskIDs reqs)
    (fold_left Z.max (map rangeID reqs) 0).

(** The writer after an iteration whose [CreateTasks] call answered
    [(r, e)] and left the store in [st']. *)
Definition afterCreateTasks (w : writer) (reqs : list request)
  (c' : Chan.chan request) (tl' : TL) (taskIDs : list Z)
  (r : option CreateTasksResponse) (e : option error) (st' : Store)
  : writer :=
  let mrl := List.last (take (length reqs) taskIDs) 0 in
  mkWriter tl' (tlID w) st' c'
    (if mrl >? 0 then mrl else maxReadLevel w) (shutdownCh w)
    (logger w ++
     match e with
     | Some e' => [mkStoreErrorEvent e' (hd 0 taskIDs)
                     (nth (length reqs - 1) taskIDs 0)]
     | None => []
     end)
    (chanSeq w)
    (delivered w ++ responsesTo reqs (mkResponse e r))
    (createTasksCalls w ++ [callFor w reqs taskIDs]) (loopExited w).

(** One iteration on an open channel, in closed form. *)
Lemma writeBatch_closed (w : writer) (req : request) (rest : list request)
  (k : nat) :
  let reqs := req :: take maxTaskBatchSize rest in
  let c' := Chan.mk (drop maxTaskBatchSize rest) k false in
  writeBatch newTaskIDs CreateTasks w req (Chan.mk rest k false) =
  match newTaskIDs (tlMgr w) (length reqs) with
  | (inr e, tl') => Done (afterAllocationFailure w reqs c' tl' e)
  | (inl taskIDs, tl') =>
      if Nat.leb (length reqs) (length taskIDs)
      then let '((r, e), st') :=
             CreateTasks (taskManager w) (callFor w reqs taskIDs) in
           Done (afterCreateTasks w reqs c' tl' taskIDs r e st')
      else Panic
  end.
Proof.
  intros reqs c'. unfold writeBatch.
  rewrite getWriteBatch_open by reflexivity. cbn [obind Chan.buf Chan.cap].
  fold reqs. fold c'. cbn [tlMgr set_appendCh].
  destruct (newTaskIDs (tlMgr w) (length reqs)) as [[taskIDs|e] tl'].
  - rewrite collectTasks_closed, drop_0. simpl app.
    destruct (Nat.leb (length reqs) (length taskIDs)) eqn:Hlen;
      [|reflexivity].
    apply Nat.leb_le in Hlen. cbn [obind].
    cbn [tlID set_tlMgr set_appendCh taskManager].
    change (mkCreateTasksRequest _ _ _ _ _) with (callFor w reqs taskIDs).
    destruct (CreateTasks (taskManager w) (callFor w reqs taskIDs))
      as [[r e] st'].
    unfold logStoreError, afterCreateTasks.
    assert (H0 : taskIDs !! O = Some (hd 0 taskIDs)).
    { destruct taskIDs; [simpl in Hlen; lia|reflexivity]. }
    assert (Hn : taskIDs !! (length reqs - 1)%nat =
                 Some (nth (length reqs - 1) taskIDs 0)).
    { destruct (lookup_lt_is_Some_2 taskIDs (length reqs - 1)%nat) as [x Hx];
        [simpl in *; lia|].
      rewrite Hx. f_equal. symmetry. apply nth_lookup_Some, Hx. }
    destruct e as [e'|]; [rewrite H0, Hn|]; cbn [obind];
      unfold sendWriteResponse; rewrite sendWriteResponse_from_app;
      destruct (List.last (take (length reqs) taskIDs) 0 >? 0);
      simpl; rewrite ?app_nil_r; reflexivity.
  - unfold sendWriteResponse. rewrite sendWriteResponse_from_app. reflexivity.
Qed.

(** In a reachable state the loop's append case runs the iteration on the
    open channel of capacity 250. *)
Lemma loopStep_append (w : writer) (req : request) (rest : list request) :
  Reachable w -> loopExited w = false ->
  Chan.buf (appendCh w) = req :: rest ->
  loopStep w CaseAppend =
  Some (writeBatch newTaskIDs CreateTasks w req
          (Chan.mk rest outstandingTaskAppendsThreshold false)).
Proof.
  intros Hr Hex Hb. destruct (reachable_writerInv _ _ _ _ _ Hr) as (Hk & Hc & _).
  unfold taskWriterLoop_step, Chan.tryRecv. rewrite Hex, Hb, Hk, Hc, Hex.
  reflexivity.
Qed.

(** What a completed iteration of a reachable writer did. *)
Lemma iteration_inv (w w' : writer) :
  Reachable w ->
  loopStep w CaseAppend = Some (Done w') ->
  let reqs := batchOf (Chan.buf (appendCh w)) in
  let c' := Chan.mk (drop (S maxTaskBatchSize) (Chan.buf (appendCh w)))
                    outstandingTaskAppendsThreshold false in
  loopExited w = false /\ reqs <> [] /\
  ((exists e tl',
      newTaskIDs (tlMgr w) (length reqs) = (inr e, tl') /\
      w' = afterAllocationFailure w reqs c' tl' e) \/
   (exists taskIDs tl' r e st',
      newTaskIDs (tlMgr w) (length reqs) = (inl taskIDs, tl') /\
      (length reqs <= length taskIDs)%nat /\
      CreateTasks (taskManager w) (callFor w reqs taskIDs) = ((r, e), st') /\
      w' = afterCreateTasks w reqs c' tl' taskIDs r e st')).
Proof.
  intros Hr Hl reqs c'.
  destruct (loopExited w) eqn:Hex.
  { unfold taskWriterLoop_step in Hl. rewrite Hex in Hl. discriminate. }
  destruct (Chan.buf (appendCh w)) as [|req rest] eqn:Hb.
  { unfold taskWriterLoop_step, Chan.tryRecv in Hl. rewrite Hex, Hb in Hl.
    destruct (Chan.closed (appendCh w)); discriminate. }
  rewrite (loopStep_append w req rest Hr Hex Hb), writeBatch_closed in Hl.
  subst reqs c'. unfold batchOf. cbn [take drop].
  split; [reflexivity|]. split; [discriminate|].
  destruct (newTaskIDs (tlMgr w) _) as [[taskIDs|e] tl'].
  - right. destruct (Nat.leb _ (length taskIDs)) eqn:Hlen; [|discriminate].
    apply Nat.leb_le in Hlen.
    destruct (CreateTasks _ _) as [[r e] st'] eqn:Hct.
    exists taskIDs, tl', r, e, st'. inversion Hl. auto.
  - left. exists e, tl'. inversion Hl. auto.
Qed.

Lemma map_fst_responsesTo' (reqs : list request)
  (resp : @writeTaskResponse error CreateTasksResponse) :
  map fst (responsesTo reqs resp) = map responseCh reqs.
Proof. unfold responsesTo. rewrite map_map. reflexivity. Qed.

(** X1. One iteration of the loop of a reachable writer answers exactly
    the first 101 queued requests (all of them when fewer are queued), in
    queue order, and leaves the others queued in their order, on a channel
    that stays open. *)
Theorem iteration_answers_queue_prefix (w w' : writer) :
  Reachable w ->
  loopStep w CaseAppend = Some (Done w') ->
  map fst (delivered w') =
    map fst (delivered w) ++
    map responseCh (take 101 (Chan.buf (appendCh w))) /\
  Chan.buf (appendCh w') = drop 101 (Chan.buf (appendCh w)) /\
  Chan.closed (appendCh w') = false /\
  chanSeq w' = chanSeq w.
Proof.
  intros Hr Hl. destruct (iteration_inv w w' Hr Hl) as (_ & _ & H).
  destruct H as [(e & tl' & _ & ->)|(ids & tl' & r & e & st' & _ & _ & _ & ->)];
    simpl; rewrite map_app, map_fst_responsesTo'; auto.
Qed.

(** X2. The tasks handed to [CreateTasks] are the requests of the batch in
    queue order: the i-th task carries the execution and task info of the
    i-th request and the i-th task ID that [newTaskIDs] returned for the
    size of the batch; task IDs beyond the batch are dropped, and the call
    names the writer's own domain, task list and task type. *)
Theorem createTasks_carries_batch (w w' : writer)
  (call : @CreateTasksRequest WorkflowExecution TaskInfo) :
  Reachable w ->
  loopStep w CaseAppend = Some (Done w') ->
  createTasksCalls w' = createTasksCalls w ++ [call] ->
  let reqs := take 101 (Chan.buf (appendCh w)) in
  exists taskIDs,
    newTaskIDs (tlMgr w) (length reqs) = (inl taskIDs, tlMgr w') /\
    length (Tasks call) = length reqs /\
    (forall i req, reqs !! i = Some req ->
       exists id, taskIDs !! i = Some id /\
         Tasks call !! i =
           Some (mkCreateTaskInfo id (execution req) (taskInfo req))) /\
    DomainID call = domainID (tlID w) /\
    TaskList call = taskListName (tlID w) /\
    TaskListType call = taskType (tlID w).
Proof.
  intros Hr Hl Hcalls reqs. destruct (iteration_inv w w' Hr Hl) as (_ & _ & H).
  fold reqs in H. change (batchOf (Chan.buf (appendCh w))) with reqs in H.
  destruct H as [(e & tl' & _ & ->)
                |(ids & tl' & r & e & st' & Hn & Hlen & _ & ->)];
    simpl in Hcalls.
  - apply (f_equal length) in Hcalls. rewrite length_app in Hcalls.
    simpl in Hcalls. lia.
  - apply app_inv_head in Hcalls. inversion Hcalls; subst call; clear Hcalls.
    exists ids. simpl. split; [exact Hn|]. split.
    + rewrite length_zip_with. lia.
    + split; [|auto]. intros i req Hi.
      destruct (lookup_lt_is_Some_2 ids i) as [id Hid].
      { apply lookup_lt_Some in Hi. lia. }
      exists id. split; [exact Hid|].
      rewrite lookup_zip_with, Hid, Hi. reflexivity.
Qed.


Lemma last_take_nth (l : list Z) (n : nat) (d : Z) :
  (1 <= n <= length l)%nat -> List.last (take n l) d = nth (n - 1) l d.
Proof.
  intros Hn. destruct n as [|m]; [lia|].
  destruct (lookup_lt_is_Some_2 l m) as [x Hx]; [lia|].
  rewrite (take_S_r _ _ _ Hx), last_last.
  replace (S m - 1)%nat with m by lia. symmetry. apply nth_lookup_Some, Hx.
Qed.

Lemma taskIDs_of_zip (ids : list Z) (reqs : list request) :
  (length reqs <= length ids)%nat ->
  map TaskID (zip_with taskOf ids reqs) = take (length reqs) ids.
Proof.
  revert ids. induction reqs as [|req reqs IH]; intros [|id ids] H;
    simpl in *; try reflexivity; try lia.
  f_equal. apply IH. lia.
Qed.

(** X4. A failed [CreateTasks] is logged once, with its error and the task
    IDs of the first and of the last task of the batch; a successful one,
    and an iteration that makes no call, log nothing. *)
Theorem store_error_logged_once (w w' : writer) :
  Reachable w ->
  loopStep w CaseAppend = Some (Done w') ->
  (createTasksCalls w' = createTasksCalls w /\ logger w' = logger w) \/
  (exists call r e st',
     createTasksCalls w' = createTasksCalls w ++ [call] /\
     CreateTasks (taskManager w) call = ((r, e), st') /\
     logger w' =
       logger w ++
       match e with
       | Some e' =>
           [mkStoreErrorEvent e' (hd 0 (map TaskID (Tasks call)))
              (List.last (map TaskID (Tasks call)) 0)]
       | None => []
       end).
Proof.
  intros Hr Hl. destruct (iteration_inv w w' Hr Hl) as (_ & Hne & H).
  destruct H as [(e & tl' & _ & ->)
                |(ids & tl' & r & e & st' & _ & Hlen & Hct & ->)].
  - left. auto.
  - right. eexists _, r, e, st'. split; [reflexivity|]. split; [exact Hct|].
    simpl. rewrite taskIDs_of_zip by exact Hlen.
    set (reqs := batchOf (Chan.buf (appendCh w))) in *.
    assert (Hpos : (1 <= length reqs)%nat).
    { destruct reqs; [congruence|simpl; lia]. }
    rewrite last_take_nth by lia.
    destruct e; [|reflexivity]. do 3 f_equal.
    destruct ids; [simpl in Hlen; lia|].
    destruct (length reqs); [lia|reflexivity].
Qed.

(** Task IDs that grow along the list. *)
Definition ascending (l : list Z) : Prop :=
  forall i j a b, (i < j)%nat -> l !! i = Some a -> l !! j = Some b -> a < b.

(** X5. When the task IDs of a batch are positive and ascending, as a
    sequence allocator hands them out, the maxReadLevel published after the
    [CreateTasks] call is the largest task ID of the batch. *)
Theorem maxReadLevel_is_largest_taskID (w w' : writer)
  (call : @CreateTasksRequest WorkflowExecution TaskInfo) :
  Reachable w ->
  loopStep w CaseAppend = Some (Done w') ->
  createTasksCalls w' = createTasksCalls w ++ [call] ->
  ascending (map TaskID (Tasks call)) ->
  Forall (fun t => 0 < TaskID t) (Tasks call) ->
  Forall (fun t => TaskID t <= GetMaxReadLevel w') (Tasks call) /\
  exists t, t ∈ Tasks call /\ TaskID t = GetMaxReadLevel w'.
Proof.
  intros Hr Hl Hcalls Hasc Hpos.
  destruct (iteration_inv w w' Hr Hl) as (_ & Hne & H).
  set (reqs := batchOf (Chan.buf (appendCh w))) in *.
  destruct H as [(e & tl' & _ & ->)
                |(ids & tl' & r & e & st' & _ & Hlen & _ & ->)];
    simpl in Hcalls.
  { apply (f_equal length) in Hcalls. rewrite length_app in Hcalls.
    simpl in Hcalls. lia. }
  apply app_inv_head in Hcalls. inversion Hcalls; subst call; clear Hcalls.
  simpl in *. unfold GetMaxReadLevel. simpl. fold reqs.
  set (tasks := zip_with taskOf ids reqs) in *.
  assert (Hids : map TaskID tasks = take (length reqs) ids)
    by (apply taskIDs_of_zip, Hlen).
  assert (Hn : (1 <= length reqs)%nat).
  { destruct reqs; [congruence|simpl; lia]. }
  assert (Hlt : length tasks = length reqs).
  { subst tasks. rewrite length_zip_with. lia. }
  destruct (lookup_lt_is_Some_2 tasks (length reqs - 1)%nat) as [t Ht];
    [lia|].
  assert (Hlast : List.last (take (length reqs) ids) 0 = TaskID t).
  { rewrite <- Hids.
    rewrite <- (take_drop (length reqs - 1) tasks).
    rewrite (drop_S _ _ _ Ht), drop_ge by lia.
    rewrite map_app. simpl. apply last_last. }
  rewrite Hlast.
  assert (Htpos : 0 < TaskID t).
  { rewrite Forall_forall in Hpos. apply Hpos.
    apply list_elem_of_lookup. eauto. }
  destruct (Z.gtb_spec (TaskID t) 0) as [_|]; [|lia].
  split.
  - apply Forall_forall. intros t0 Hin.
    apply list_elem_of_lookup in Hin. destruct Hin as [i Hi].
    assert (Hib : (i < length tasks)%nat) by (eapply lookup_lt_Some; eauto).
    destruct (decide (i = length reqs - 1)%nat) as [->|Hd].
    + rewrite Ht in Hi. inversion Hi. lia.
    + assert (TaskID t0 < TaskID t); [|lia].
      apply (Hasc i (length reqs - 1)%nat); [lia| |];
        rewrite list_lookup_fmap; [rewrite Hi|rewrite Ht]; reflexivity.
  - exists t. split; [|reflexivity]. apply list_elem_of_lookup. eauto.
Qed.



(** X7. The submit channel of a reachable writer never holds more than
    250 requests, whatever callers, owner and loop do. *)
Theorem queue_within_capacity (w : writer) :
  Reachable w ->
  (length (Chan.buf (appendCh w)) <= 250)%nat /\
  Chan.cap (appendCh w) = 250%nat.
Proof.
  intros Hr. destruct (reachable_writerInv _ _ _ _ _ Hr) as (Hk & _ & Hl).
  split; [exact Hl|exact Hk].
Qed.

(** X8. Once the loop has returned, every call of [appendTask] panics on
    the send to the closed channel: it neither queues its request nor
    returns the service-busy error. *)
Theorem appendTask_after_exit_panics (w : writer) (e : WorkflowExecution)
  (t : TaskInfo) (rid : Z) :
  Reachable w ->
  loopExited w = true ->
  fst (appendTask createServiceBusyError w e t rid) = PanicSendOnClosed /\
  appendCh (snd (appendTask createServiceBusyError w e t rid)) = appendCh w.
Proof.
  intros Hr Hex. destruct (reachable_writerInv _ _ _ _ _ Hr) as (_ & Hc & _).
  rewrite Hex in Hc. unfold appendTask, Chan.trySend. rewrite Hc. auto.
Qed.

Lemma step_exit_needs_shutdown (w w' : writer) :
  Step w w' ->
  (loopExited w = true -> shutdownCh w = true) ->
  (loopExited w' = true -> shutdownCh w' = true).
Proof.
  intros [w1 e t rid st w1' Ha Hp| w1 | w1 c w1' Hl] Hinv.
  - unfold appendTask in Ha.
    destruct (Chan.trySend _ _); inversion Ha; subst; exact Hinv.
  - reflexivity.
  - unfold taskWriterLoop_step in Hl.
    destruct (loopExited w1) eqn:Hex; [discriminate|]. destruct c.
    + destruct (Chan.tryRecv (appendCh w1)) as [req c'| |]; try discriminate.
      inversion Hl as [Hw]; clear Hl. apply writeBatch_run in Hw.
      destruct Hw as (_ & _ & _ & _ & _ & Hex' & _). congruence.
    + destruct (shutdownCh w1) eqn:Hsh; [|discriminate].
      unfold exitLoop in Hl. destruct (Chan.close _); [|discriminate].
      inversion Hl; subst. intros _. exact Hsh.
Qed.

(** X9. The writer loop never returns on its own: in a reachable state in
    which it has returned, the owner has closed [shutdownCh]. *)
Theorem loop_exits_only_on_shutdown (w : writer) :
  Reachable w ->
  loopExited w = true ->
  shutdownCh w = true.
Proof.
  intros (tl & id & st & Hs).
  remember (Start getTaskSequenceNumber (newTaskWriter tl id st false))
    as w0 eqn:E.
  induction Hs as [w|w1 w2 w3 Hs IH Hst].
  - subst w. discriminate.
  - eapply step_exit_needs_shutdown; eauto.
Qed.

(** The response channels of the requests answered so far, oldest answer
    first, followed by those of the requests still queued, head first. *)
Definition channels (w : writer) : list nat :=
  map fst (delivered w) ++ map responseCh (Chan.buf (appendCh w)).

(** Numbers that grow along the list. *)
Definition inOrder (l : list nat) : Prop :=
  forall i j a b,
    (i < j)%nat -> l !! i = Some a -> l !! j = Some b -> (a < b)%nat.

Lemma inOrder_snoc (l : list nat) (x : nat) :
  inOrder l -> Forall (fun a => (a < x)%nat) l -> inOrder (l ++ [x]).
Proof.
  intros Hl Hx i j a b Hij Hi Hj.
  assert (Hjb : (j < length (l ++ [x]))%nat) by (eapply lookup_lt_Some; eauto).
  rewrite length_app in Hjb. simpl in Hjb.
  rewrite lookup_app_l in Hi by lia.
  destruct (decide (j < length l)%nat) as [Hjl|Hjl].
  - rewrite lookup_app_l in Hj by lia. eauto.
  - rewrite lookup_app_r in Hj by lia.
    replace (j - length l)%nat with O in Hj by lia. inversion Hj; subst b.
    rewrite Forall_forall in Hx. apply Hx. apply list_elem_of_lookup. eauto.
Qed.

(** A step leaves the channels as they are, or a caller adds its new one. *)
Lemma step_channels (w w' : writer) :
  Step w w' ->
  channels w' = channels w \/ channels w' = channels w ++ [chanSeq w].
Proof.
  intros [w1 e t rid st w1' Ha Hp| w1 | w1 c w1' Hl]; unfold channels.
  - unfold appendTask, Chan.trySend in Ha.
    destruct (Chan.closed (appendCh w1)); [inversion Ha; subst; auto|].
    destruct (Chan.full (appendCh w1)); inversion Ha; subst; simpl; [auto|].
    right. rewrite map_app, app_assoc. reflexivity.
  - left. reflexivity.
  - left. unfold taskWriterLoop_step in Hl.
    destruct (loopExited w1); [discriminate|]. destruct c.
    + unfold Chan.tryRecv in Hl.
      destruct (Chan.buf (appendCh w1)) as [|req b] eqn:Hb;
        [destruct (Chan.closed (appendCh w1)); discriminate|].
      inversion Hl as [Hw]; clear Hl. apply writeBatch_run in Hw.
      destruct Hw as (reqs & c' & Hg & Hrun & Hc & _).
      apply batchRun_delivered in Hrun. destruct Hrun as (resp & Hd).
      apply getWriteBatch_from_prefix in Hg.
      destruct Hg as (more & -> & _ & Hbuf & _). simpl in Hbuf.
      rewrite Hd, Hc, map_app, map_fst_responsesTo', <- app_assoc, <- map_app.
      simpl. rewrite <- Hbuf. reflexivity.
    + destruct (shutdownCh w1); [|discriminate].
      unfold exitLoop, Chan.close in Hl.
      destruct (Chan.closed (appendCh w1)); [discriminate|].
      inversion Hl; subst. reflexivity.
Qed.

(** X10. Requests are answered in the order in which their callers got
    into the queue: in every reachable state the response channels, which
    are numbered in the order of the calls of [appendTask], grow along the
    responses sent and on along the queue.  So no caller is answered
    twice, no answered request is still queued, and no request overtakes an
    older one. *)
Theorem responses_in_submission_order (w : writer) :
  Reachable w ->
  inOrder (channels w) /\
  NoDup (channels w) /\
  Forall (fun ch => (ch < chanSeq w)%nat) (channels w).
Proof.
  intros Hr. pose proof (reachable_channelsInv _ _ _ _ _ Hr) as [Hnd Hlt].
  split; [|split; [exact Hnd|exact Hlt]]. clear Hnd Hlt.
  destruct Hr as (tl & id & st & Hs).
  remember (Start getTaskSequenceNumber (newTaskWriter tl id st false))
    as w0 eqn:E.
  induction Hs as [w|w1 w2 w3 Hs IH Hst].
  - subst w. intros i j a b _ Hi. discriminate Hi.
  - specialize (IH E).
    assert (Hr2 : Reachable w2) by (subst w1; exists tl, id, st; exact Hs).
    destruct (reachable_channelsInv _ _ _ _ _ Hr2) as [_ Hlt].
    destruct (step_channels _ _ Hst) as [->| ->]; [exact IH|].
    apply inOrder_snoc; assumption.
Qed.

(** A caller that finds the channel open takes a step. *)
Lemma steps_appendTask (w0 w : writer) (e : WorkflowExecution) (t : TaskInfo)
  (rid : Z) :
  Steps w0 w -> Chan.closed (appendCh w) = false ->
  Steps w0 (snd (appendTask createServiceBusyError w e t rid)) /\
  Chan.closed (appendCh (snd (appendTask createServiceBusyError w e t rid)))
    = false.
Proof.
  intros Hs Hc.
  destruct (appendTask createServiceBusyError w e t rid) as [st w'] eqn:Ha.
  simpl. unfold appendTask, Chan.trySend in Ha. rewrite Hc in Ha.
  assert (Hst : st <> PanicSendOnClosed /\ Chan.closed (appendCh w') = false).
  { destruct (Chan.full (appendCh w)); inversion Ha; subst; simpl;
      split; auto; discriminate. }
  destruct Hst as [Hp Hc']. split; [|exact Hc'].
  eapply steps_step; [exact Hs|]. eapply step_append; [|exact Hp].
  unfold appendTask, Chan.trySend. rewrite Hc. exact Ha.
Qed.

End Iteration.

(** *** The properties on the reference allocator and store *)

Section OnInputs.

Variable alloc : Z -> nat -> (list Z + string) * Z.
Variable create :
  leasedStore -> @CreateTasksRequest string string ->
  (option unit * option string) * leasedStore.

Lemma submit_steps_from (w0 w1 : refWriter) (n : nat) (rid : Z) :
  steps busy alloc create w0 w1 ->
  Chan.closed (appendCh w1) = false ->
  steps busy alloc create w0 (submit n rid w1) /\
  Chan.closed (appendCh (submit n rid w1)) = false.
Proof.
  intros H1 H2. induction n as [|n [IH1 IH2]].
  - split; assumption.
  - apply (steps_appendTask busy alloc create w0 (submit n rid w1)
             "wf"%string "task"%string rid IH1 IH2).
Qed.

Lemma submit_steps (n : nat) (rid : Z) :
  steps busy alloc create writer0 (submit n rid writer0) /\
  Chan.closed (appendCh (submit n rid writer0)) = false.
Proof. apply submit_steps_from; [apply steps_refl|reflexivity]. Qed.

Lemma steps_reachable (w : refWriter) :
  steps busy alloc create writer0 w ->
  reachable busy (fun next => next) alloc create w.
Proof. intros H. exists 1, refList, (mkLeasedStore 5 []). exact H. Qed.

Lemma submit_reachable_any (n : nat) (rid : Z) :
  reachable busy (fun next => next) alloc create (submit n rid writer0).
Proof. apply steps_reachable, submit_steps. Qed.

End OnInputs.


Lemma iteration_answers_queue_prefix_witness :
  let w := submit 3 5 writer0 in
  let w' := afterBatch w in
  refLoop_step w CaseAppend = Some (Done w') /\
  map fst (delivered w') =
    map fst (delivered w) ++
    map responseCh (take 101 (Chan.buf (appendCh w))) /\
  Chan.buf (appendCh w') = drop 101 (Chan.buf (appendCh w)) /\
  Chan.closed (appendCh w') = false /\
  chanSeq w' = chanSeq w.
Proof.
  intros w w'.
  assert (Hw : refLoop_step w CaseAppend = Some (Done w'))
    by (vm_compute; reflexivity).
  split; [exact Hw|].
  exact (iteration_answers_queue_prefix busy (fun next => next) seqTaskIDs
           leasedCreateTasks w w'
           (submit_reachable_any seqTaskIDs leasedCreateTasks 3 5) Hw).
Defined.

(** The request the last iteration handed to [CreateTasks]. *)
Definition callOf (w : refWriter) : @CreateTasksRequest string string :=
  List.last (createTasksCalls (afterBatch w))
            (mkCreateTasksRequest ""%string ""%string 0 [] 0).

Lemma createTasks_carries_batch_witness :
  let w := submit 2 5 writer0 in
  let w' := afterBatch w in
  let reqs := take 101 (Chan.buf (appendCh w)) in
  refLoop_step w CaseAppend = Some (Done w') /\
  createTasksCalls w' = createTasksCalls w ++ [callOf w] /\
  exists taskIDs,
    seqTaskIDs (tlMgr w) (length reqs) = (inl taskIDs, tlMgr w') /\
    length (Tasks (callOf w)) = length reqs /\
    (forall i req, reqs !! i = Some req ->
       exists id, taskIDs !! i = Some id /\
         Tasks (callOf w) !! i =
           Some (mkCreateTaskInfo id (execution req) (taskInfo req))) /\
    DomainID (callOf w) = domainID (tlID w) /\
    TaskList (callOf w) = taskListName (tlID w) /\
    TaskListType (callOf w) = taskType (tlID w).
Proof.
  intros w w' reqs.
  assert (Hw : refLoop_step w CaseAppend = Some (Done w'))
    by (vm_compute; reflexivity).
  assert (Hc : createTasksCalls w' = createTasksCalls w ++ [callOf w])
    by (vm_compute; reflexivity).
  split; [exact Hw|]. split; [exact Hc|].
  exact (createTasks_carries_batch busy (fun next => next) seqTaskIDs
           leasedCreateTasks w w' (callOf w)
           (submit_reachable_any seqTaskIDs leasedCreateTasks 2 5) Hw Hc).
Defined.


Lemma store_error_logged_once_witness :
  let w := submit 2 3 writer0 in
  let w' := afterBatch w in
  refLoop_step w CaseAppend = Some (Done w') /\
  logger w' = [mkStoreErrorEvent "ConditionFailed"%string 1 2] /\
  ((createTasksCalls w' = createTasksCalls w /\ logger w' = logger w) \/
   (exists call r e st',
      createTasksCalls w' = createTasksCalls w ++ [call] /\
      leasedCreateTasks (taskManager w) call = ((r, e), st') /\
      logger w' =
        logger w ++
        match e with
        | Some e' =>
            [mkStoreErrorEvent e' (hd 0 (map TaskID (Tasks call)))
               (List.last (map TaskID (Tasks call)) 0)]
        | None => []
        end)).
Proof.
  intros w w'.
  assert (Hw : refLoop_step w CaseAppend = Some (Done w'))
    by (vm_compute; reflexivity).
  split; [exact Hw|]. split; [vm_compute; reflexivity|].
  exact (store_error_logged_once busy (fun next => next) seqTaskIDs
           leasedCreateTasks w w'
           (submit_reachable_any seqTaskIDs leasedCreateTasks 2 3) Hw).
Defined.

Lemma maxReadLevel_is_largest_taskID_witness :
  let w := submit 3 5 writer0 in
  let w' := afterBatch w in
  refLoop_step w CaseAppend = Some (Done w') /\
  createTasksCalls w' = createTasksCalls w ++ [callOf w] /\
  map TaskID (Tasks (callOf w)) = [1; 2; 3] /\
  GetMaxReadLevel w' = 3 /\
  Forall (fun t => TaskID t <= GetMaxReadLevel w') (Tasks (callOf w)) /\
  exists t, t ∈ Tasks (callOf w) /\ TaskID t = GetMaxReadLevel w'.
Proof.
  intros w w'.
  assert (Hw : refLoop_step w CaseAppend = Some (Done w'))
    by (vm_compute; reflexivity).
  assert (Hc : createTasksCalls w' = createTasksCalls w ++ [callOf w])
    by (vm_compute; reflexivity).
  assert (Hids : map TaskID (Tasks (callOf w)) = [1; 2; 3])
    by (vm_compute; reflexivity).
  split; [exact Hw|]. split; [exact Hc|]. split; [exact Hids|].
  split; [vm_compute; reflexivity|].
  apply (maxReadLevel_is_largest_taskID busy (fun next => next) seqTaskIDs
           leasedCreateTasks w w' (callOf w)
           (submit_reachable_any seqTaskIDs leasedCreateTasks 3 5) Hw Hc).
  - rewrite Hids. intros i j a b Hij Hi Hj.
    destruct i as [|[|[|i]]]; destruct j as [|[|[|j]]]; simpl in Hi, Hj;
      try lia; try discriminate; inversion Hi; inversion Hj; lia.
  - change (Forall ((fun z => 0 < z) ∘ TaskID) (Tasks (callOf w))).
    apply Forall_fmap. change (Forall (fun z => 0 < z)
                                  (map TaskID (Tasks (callOf w)))).
    rewrite Hids. repeat constructor.
Defined.

Lemma afterBatch_steps (n : nat) (rid : Z) :
  steps busy seqTaskIDs leasedCreateTasks writer0
        (afterBatch (submit (S n) rid writer0)).
Proof.
  destruct (submit_steps seqTaskIDs leasedCreateTasks (S n) rid) as [Hs Hc].
  pose proof (steps_reachable seqTaskIDs leasedCreateTasks _ Hs) as Hr.
  unfold afterBatch.
  destruct (refLoop_step (submit (S n) rid writer0) CaseAppend)
    as [[w'|]|] eqn:Hl; try exact Hs.
  eapply steps_step; [exact Hs|]. eapply step_loop. exact Hl.
Qed.


Lemma queue_within_capacity_witness :
  let w := submit 251 5 writer0 in
  chanSeq w = 251%nat /\
  (length (Chan.buf (appendCh w)) <= 250)%nat /\
  Chan.cap (appendCh w) = 250%nat.
Proof.
  intros w. split; [vm_compute; reflexivity|].
  exact (queue_within_capacity busy (fun next => next) seqTaskIDs
           leasedCreateTasks w
           (submit_reachable_any seqTaskIDs leasedCreateTasks 251 5)).
Defined.

Lemma afterShutdown_reachable :
  reachable busy (fun next => next) seqTaskIDs leasedCreateTasks
            (afterShutdown stopping).
Proof.
  destruct stopping_reachable as (tl & id & st & Hs). exists tl, id, st.
  eapply steps_step; [exact Hs|].
  apply (step_loop busy seqTaskIDs leasedCreateTasks stopping CaseShutdown).
  reflexivity.
Qed.

Lemma appendTask_after_exit_panics_witness :
  let w := afterShutdown stopping in
  loopExited w = true /\
  fst (appendTask busy w "wf"%string "task"%string 5) = PanicSendOnClosed /\
  appendCh (snd (appendTask busy w "wf"%string "task"%string 5)) = appendCh w.
Proof.
  intros w. split; [reflexivity|].
  exact (appendTask_after_exit_panics busy (fun next => next) seqTaskIDs
           leasedCreateTasks w "wf"%string "task"%string 5
           afterShutdown_reachable eq_refl).
Defined.

Lemma loop_exits_only_on_shutdown_witness :
  let w := afterShutdown stopping in
  loopExited w = true /\ shutdownCh w = true.
Proof.
  intros w. split; [reflexivity|].
  exact (loop_exits_only_on_shutdown busy (fun next => next) seqTaskIDs
           leasedCreateTasks w afterShutdown_reachable eq_refl).
Defined.

Lemma responses_in_submission_order_witness :
  let w := submit 2 5 (afterBatch (submit 3 5 writer0)) in
  channels w = [0; 1; 2; 3; 4]%nat /\
  inOrder (channels w) /\
  NoDup (channels w) /\
  Forall (fun ch => (ch < chanSeq w)%nat) (channels w).
Proof.
  intros w. split; [vm_compute; reflexivity|].
  apply (responses_in_submission_order busy (fun next => next) seqTaskIDs
           leasedCreateTasks w).
  apply steps_reachable.
  apply submit_steps_from; [apply afterBatch_steps|vm_compute; reflexivity].
Defined.

End TaskWriterProps.

(** ** More on the matching service: what makes [Start] return, and what
       [Stop] writes to the log *)
Module MatchingProps.
Import Matching.

Lemma run_snoc (l : list action) (a : action) (s : Service) :
  run (l ++ [a]) s = act a (run l s).
Proof. unfold run. rewrite fold_left_app. reflexivity. Qed.

(** [Start] is past the receive. *)
Definition pastReceive (s : Service) : bool :=
  match pc s with
  | Released | StartReturned => true
  | _ => false
  end.

(** X11. [Start] gets past [<-s.stopC], and so to [base.Stop()], only
    through a call of [Stop] that found it parked at the receive: every
    run from [NewService] in which [Start] is past the receive contains
    such a call. *)
Theorem Start_returns_only_after_Stop (l : list action) :
  pastReceive (run l NewService) = true ->
  exists l1 l2,
    l = l1 ++ CallStop :: l2 /\
    pc (run l1 NewService) = ParkedOnStopC.
Proof.
  induction l as [|a l IH] using rev_ind; [discriminate|].
  rewrite run_snoc. intros Hp.
  destruct (pastReceive (run l NewService)) eqn:Hprev.
  - destruct (IH eq_refl) as (l1 & l2 & -> & Hpark).
    exists l1, (l2 ++ [a]). rewrite <- app_assoc. auto.
  - pose proof (run_parkedInv l NewService eq_refl) as Hinv.
    unfold parkedInv in Hinv. unfold pastReceive in Hprev, Hp.
    destruct (run l NewService) as [n p h b lg] eqn:Hrun. simpl in *.
    subst n. destruct a as [|ok].
    + destruct p; simpl in Hp; try discriminate.
      exists l, []. rewrite Hrun. auto.
    + destruct p; simpl in Hp; try discriminate.
      destruct ok; discriminate.
Qed.

Lemma Start_returns_only_after_Stop_witness :
  let l := [StartMoves true; StartMoves true; CallStop; StartMoves true] in
  pastReceive (run l NewService) = true /\
  exists l1 l2,
    l = l1 ++ CallStop :: l2 /\
    pc (run l1 NewService) = ParkedOnStopC.
Proof.
  intros l. split; [reflexivity|].
  exact (Start_returns_only_after_Stop l eq_refl).
Defined.

(** The number of log lines equal to [msg]. *)
Definition countLines (msg : string) (lg : list string) : nat :=
  length (filter (fun line => line = msg) lg).

#[local] Instance action_eq_dec : EqDecision action.
Proof. solve_decision. Defined.

(** The number of calls of [Stop] in a run. *)
Definition countStops (l : list action) : nat :=
  length (filter (fun a => a = CallStop) l).

Lemma countLines_snoc (msg line : string) (lg : list string) :
  countLines msg (lg ++ [line]) =
  (countLines msg lg + if decide (line = msg) then 1 else 0)%nat.
Proof.
  unfold countLines. rewrite filter_app, length_app. f_equal.
  rewrite filter_cons, filter_nil. destruct (decide (line = msg)); reflexivity.
Qed.

(** X12. Every call of [Stop] writes the line "cadence-matching stopped",
    whether it stopped the service or found nothing to stop, and nothing
    else writes it: after any run from [NewService] the log holds as many
    such lines as [Stop] was called. *)
Theorem Stop_logs_stopped_each_time (l : list action) :
  countLines (MatchingServiceName +:+ " stopped")
             (logged (run l NewService)) =
  countStops l.
Proof.
  induction l as [|a l IH] using rev_ind; [reflexivity|].
  rewrite run_snoc. unfold countStops in *. rewrite filter_app, length_app.
  rewrite <- IH. clear IH.
  destruct (run l NewService) as [n p h b lg].
  assert (Hline : forall line,
            countLines (MatchingServiceName +:+ " stopped") (lg ++ [line]) =
            (countLines (MatchingServiceName +:+ " stopped") lg +
             if String.eqb line "cadence-matching stopped" then 1 else 0)%nat).
  { intros line. rewrite countLines_snoc. f_equal.
    destruct (String.eqb_spec line "cadence-matching stopped") as [->|Hn].
    - destruct (decide _) as [_|E]; [reflexivity|]. exfalso. apply E. reflexivity.
    - destruct (decide _) as [E|_]; [|reflexivity]. exfalso. apply Hn, E. }
  destruct a as [|ok]; simpl.
  - destruct n; simpl; rewrite Hline; reflexivity.
  - destruct p; [| destruct ok | | | | ]; simpl; rewrite ?Hline; simpl; lia.
Qed.

End MatchingProps.

(** ** More on the history client that emits metrics: what it emits *)
Module HistoryClientProps.
Import HistoryClient.

#[local] Instance scope_eq_dec : EqDecision scope.
Proof. solve_decision. Defined.

#[local] Instance metric_eq_dec : EqDecision metric.
Proof. solve_decision. Defined.

(** The scope each operation of the client reports under. *)
Definition scopeOf (op : operation) : scope :=
  match op with
  | OpStartWorkflowExecution => HistoryClientStartWorkflowExecutionScope
  | OpGetWorkflowExecutionNextEventID =>
      HistoryClientGetWorkflowExecutionNextEventIDScope
  | OpRecordDecisionTaskStarted => HistoryClientRecordDecisionTaskStartedScope
  | OpRecordActivityTaskStarted => HistoryClientRecordActivityTaskStartedScope
  | OpRespondDecisionTaskCompleted =>
      HistoryClientRespondDecisionTaskCompletedScope
  | OpRespondActivityTaskCompleted =>
      HistoryClientRespondActivityTaskCompletedScope
  | OpRespondActivityTaskFailed => HistoryClientRespondActivityTaskFailedScope
  | OpRespondActivityTaskCanceled =>
      HistoryClientRespondActivityTaskCanceledScope
  | OpRecordActivityTaskHeartbeat =>
      HistoryClientRecordActivityTaskHeartbeatScope
  | OpRequestCancelWorkflowExecution =>
      HistoryClientRequestCancelWorkflowExecutionScope
  | OpSignalWorkflowExecution => HistoryClientSignalWorkflowExecutionScope
  | OpTerminateWorkflowExecution =>
      HistoryClientTerminateWorkflowExecutionScope
  | OpScheduleDecisionTask => HistoryClientScheduleDecisionTaskScope
  | OpRecordChildExecutionCompleted =>
      HistoryClientRecordChildExecutionCompletedScope
  end.

Section Emission.

Context {Ctx error : Type} {Request Response : operation -> Type}.
Context {Metrics Stopwatch : Type}.
Variable IncCounter : scope -> metric -> Metrics -> Metrics.
Variable StartTimer : scope -> metric -> Metrics -> Stopwatch * Metrics.
Variable StopTimer : Stopwatch -> Metrics -> Metrics.
Context {S : Type}.
Variable client : @Client Ctx error Request Response S.

Local Abbreviation wrapped :=
  (metricClient IncCounter StartTimer StopTimer client).

(** The error an operation returned. *)
Definition errorOf (op : operation)
  : @ResultOf error Response op -> option error :=
  match op return @ResultOf error Response op -> option error with
  | OpStartWorkflowExecution
  | OpGetWorkflowExecutionNextEventID
  | OpRecordDecisionTaskStarted
  | OpRecordActivityTaskStarted
  | OpRecordActivityTaskHeartbeat => snd
  | _ => fun err => err
  end.

(** The metrics around one call under scope [sc]: a request counted, a
    latency timer started and stopped, and a failure counted when the call
    failed. *)
Definition metricsAround (sc : scope) (failed : bool) (m : Metrics)
  : Metrics :=
  let m1 := IncCounter sc CadenceRequests m in
  let (sw, m2) := StartTimer sc CadenceLatency m1 in
  let m3 := StopTimer sw m2 in
  if failed then IncCounter sc CadenceFailures m3 else m3.



End Emission.

Section Counting.

Context {Ctx error : Type} {Request Response : operation -> Type}.
Context {S : Type}.
Variable client : @Client Ctx error Request Response S.

(** A metrics client that keeps one count per scope and metric name and
    does not record timers. *)
Definition counters : Type := scope -> metric -> nat.

Definition countInc (sc : scope) (mt : metric) (m : counters) : counters :=
  fun sc' mt' =>
    if decide (sc' = sc /\ mt' = mt) then Datatypes.S (m sc' mt')
    else m sc' mt'.

Definition countStart (sc : scope) (mt : metric) (m : counters)
  : unit * counters := (tt, m).

Definition countStop (sw : unit) (m : counters) : counters := m.

(** One call of the client: the operation, its context and request. *)
Record call : Type := mkCall {
  callOp : operation;
  callCtx : Ctx;
  callReq : Request callOp
}.

(** Calls made one after the other through [metricClient] over the
    counters; for each call, its scope and whether it failed. *)
Fixpoint runCalls (cs : list call) (st : S * counters)
  : list (scope * bool) * (S * counters) :=
  match cs with
  | [] => ([], st)
  | c :: cs' =>
      let (r, st1) :=
        invoke (metricClient countInc countStart countStop client)
               (callOp c) (callCtx c) (callReq c) st in
      let (outs, st2) := runCalls cs' st1 in
      ((scopeOf (callOp c),
        bool_decide (is_Some (errorOf (callOp c) r))) :: outs, st2)
  end.

Lemma invoke_counters (op : operation) (context : Ctx)
  (request : Request op) (s : S) (m : counters) :
  let (r, st') :=
    invoke (metricClient countInc countStart countStop client)
           op context request (s, m) in
  snd st' =
  metricsAround countInc countStart countStop (scopeOf op)
                (bool_decide (is_Some (errorOf op r))) m.
Proof.
  destruct op;
    cbn [invoke metricClient StartWorkflowExecution
         GetWorkflowExecutionNextEventID RecordDecisionTaskStarted
         RecordActivityTaskStarted RespondDecisionTaskCompleted
         RespondActivityTaskCompleted RespondActivityTaskFailed
         RespondActivityTaskCanceled RecordActivityTaskHeartbeat
         RequestCancelWorkflowExecution SignalWorkflowExecution
         TerminateWorkflowExecution ScheduleDecisionTask
         RecordChildExecutionCompleted scopeOf errorOf];
    cbv [mc_StartWorkflowExecution mc_GetWorkflowExecutionNextEventID
         mc_RecordDecisionTaskStarted mc_RecordActivityTaskStarted
         mc_RespondDecisionTaskCompleted mc_RespondActivityTaskCompleted
         mc_RespondActivityTaskFailed mc_RespondActivityTaskCanceled
         mc_RecordActivityTaskHeartbeat mc_RequestCancelWorkflowExecution
         mc_SignalWorkflowExecution mc_TerminateWorkflowExecution
         mc_ScheduleDecisionTask mc_RecordChildExecutionCompleted
         bind ret c_client c_metricsClient_IncCounter
         c_metricsClient_StartTimer sw_Stop ifErr metricsAround countStart
         countStop];
    cbn [fst snd];
    match goal with
    | |- context [?f context request s] =>
        destruct (f context request s) as [r s']
    end;
    try destruct r as [resp [e|]]; try destruct r as [e|]; reflexivity.
Qed.

Lemma countInc_same (sc : scope) (mt : metric) (m : counters) :
  countInc sc mt m sc mt = Datatypes.S (m sc mt).
Proof.
  unfold countInc. destruct (decide _) as [_|E]; [reflexivity|].
  exfalso. apply E. auto.
Qed.

Lemma countInc_other (sc sc' : scope) (mt mt' : metric) (m : counters) :
  sc' <> sc \/ mt' <> mt -> countInc sc mt m sc' mt' = m sc' mt'.
Proof.
  intros H. unfold countInc. destruct (decide _) as [[E1 E2]|_];
    [|reflexivity]. destruct H; contradiction.
Qed.

(** The number of outcomes under scope [sc], and of the failed ones. *)
Definition requestsUnder (sc : scope) (outs : list (scope * bool)) : nat :=
  length (filter (fun o => fst o = sc) outs).
Definition failuresUnder (sc : scope) (outs : list (scope * bool)) : nat :=
  length (filter (fun o => fst o = sc /\ snd o = true) outs).

Lemma requestsUnder_cons sc sc0 b outs :
  requestsUnder sc ((sc0, b) :: outs) =
  ((if decide (sc0 = sc) then 1 else 0) + requestsUnder sc outs)%nat.
Proof.
  unfold requestsUnder. rewrite filter_cons. simpl.
  destruct (decide (sc0 = sc)); reflexivity.
Qed.

Lemma failuresUnder_cons sc sc0 b outs :
  failuresUnder sc ((sc0, b) :: outs) =
  ((if decide (sc0 = sc) then if b then 1 else 0 else 0) +
   failuresUnder sc outs)%nat.
Proof.
  unfold failuresUnder. rewrite filter_cons. simpl.
  destruct (decide (sc0 = sc)), b; simpl;
    destruct (decide _) as [[? ?]|E]; try reflexivity; try congruence;
    exfalso; apply E; auto.
Qed.

(** X14. Over any sequence of calls the counts are exact: under every
    scope the request count grows by the number of calls of that scope's
    operation, the failure count by the number of those calls that returned
    an error, hence by no more than the request count, and nothing is
    counted under the latency name. *)
Theorem counters_are_exact (cs : list call) (s : S) (m : counters)
  (sc : scope) :
  let (outs, st') := runCalls cs (s, m) in
  length outs = length cs /\
  snd st' sc CadenceRequests =
    (m sc CadenceRequests + requestsUnder sc outs)%nat /\
  snd st' sc CadenceFailures =
    (m sc CadenceFailures + failuresUnder sc outs)%nat /\
  snd st' sc CadenceLatency = m sc CadenceLatency /\
  (failuresUnder sc outs <= requestsUnder sc outs)%nat.
Proof.
  revert s m. induction cs as [|c cs IH]; intros s m; simpl.
  - unfold requestsUnder, failuresUnder. simpl. repeat split; lia.
  - pose proof (invoke_counters (callOp c) (callCtx c) (callReq c) s m) as He.
    destruct (invoke _ (callOp c) (callCtx c) (callReq c) (s, m))
      as [r [s1 m1]].
    simpl in He. specialize (IH s1 m1).
    destruct (runCalls cs (s1, m1)) as [outs [s2 m2]].
    destruct IH as (Hlen & Hreq & Hfail & Hlat & Hle). simpl in *.
    rewrite requestsUnder_cons, failuresUnder_cons.
    rewrite Hreq, Hfail, Hlat, He. clear Hreq Hfail Hlat He.
    unfold metricsAround, countStart, countStop.
    set (sc0 := scopeOf (callOp c)).
    destruct (bool_decide (is_Some (errorOf (callOp c) r)));
      destruct (decide (sc0 = sc)) as [<-|Hne];
      repeat match goal with
      | |- context [countInc ?a ?b ?m0 ?a ?b] =>
          rewrite (countInc_same a b m0)
      | |- context [countInc ?a ?b ?m0 ?a' ?b'] =>
          rewrite (countInc_other a a' b b' m0)
            by (first [left; congruence|right; discriminate])
      end;
      repeat split; lia.
Qed.

End Counting.

End HistoryClientProps.

(** ** The visibility store (common/persistence): recording a start and
       listing executions *)
Module VisibilityQueries.
Import Visibility.

Definition templateCreateWorkflowExecutionStarted : string :=
  "INSERT INTO open_executions (" +:+
  "domain_id, domain_partition, workflow_id, run_id, start_time, workflow_type_name) " +:+
  "VALUES (?, ?, ?, ?, ?, ?)".

Definition templateGetOpenWorkflowExecutions : string :=
  "SELECT workflow_id, run_id, start_time, workflow_type_name " +:+
  "FROM open_executions " +:+
  "WHERE domain_id = ? " +:+
  "AND domain_partition IN (?) " +:+
  "AND start_time >= ? " +:+
  "AND start_time <= ? ".

Definition templateGetClosedWorkflowExecutions : string :=
  "SELECT workflow_id, run_id, start_time, close_time, workflow_type_name, status " +:+
  "FROM closed_executions " +:+
  "WHERE domain_id = ? " +:+
  "AND domain_partition IN (?) " +:+
  "AND start_time >= ? " +:+
  "AND start_time <= ? ".

Definition templateGetOpenWorkflowExecutionsByType : string :=
  "SELECT workflow_id, run_id, start_time, workflow_type_name " +:+
  "FROM open_executions " +:+
  "WHERE domain_id = ? " +:+
  "AND domain_partition = ? " +:+
  "AND start_time >= ? " +:+
  "AND start_time <= ? " +:+
  "AND workflow_type_name = ? ".

Definition templateGetClosedWorkflowExecutionsByType : string :=
  "SELECT workflow_id, run_id, start_time, close_time, workflow_type_name, status " +:+
  "FROM closed_executions " +:+
  "WHERE domain_id = ? " +:+
  "AND domain_partition = ? " +:+
  "AND start_time >= ? " +:+
  "AND start_time <= ? " +:+
  "AND workflow_type_name = ? ".

Definition templateGetOpenWorkflowExecutionsByID : string :=
  "SELECT workflow_id, run_id, start_time, workflow_type_name " +:+
  "FROM open_executions " +:+
  "WHERE domain_id = ? " +:+
  "AND domain_partition = ? " +:+
  "AND start_time >= ? " +:+
  "AND start_time <= ? " +:+
  "AND workflow_id = ? ".

Definition templateGetClosedWorkflowExecutionsByID : string :=
  "SELECT workflow_id, run_id, start_time, close_time, workflow_type_name, status " +:+
  "FROM closed_executions " +:+
  "WHERE domain_id = ? " +:+
  "AND domain_partition = ? " +:+
  "AND start_time >= ? " +:+
  "AND start_time <= ? " +:+
  "AND workflow_id = ? ".

Definition templateGetClosedWorkflowExecutionsByStatus : string :=
  "SELECT workflow_id, run_id, start_time, close_time, workflow_type_name, status " +:+
  "FROM closed_executions " +:+
  "WHERE domain_id = ? " +:+
  "AND domain_partition = ? " +:+
  "AND start_time >= ? " +:+
  "AND start_time <= ? " +:+
  "AND status = ? ".

(** [gocql.Consistency], as far as it is used. *)
Inductive Consistency : Type :=
| One
| LocalQuorum.

(** [workflow.WorkflowType] and [workflow.WorkflowExecutionInfo]; a
    missing optional field is [None]. *)
Record WorkflowType : Type := mkWorkflowType {
  Name : option string
}.

Section Queries.

(** [time.Time], the close status, the gocql error and [gocql.UUID], with
    [common.UnixNanoToCQLTimestamp], [Time.UnixNano] and [UUID.String]. *)
Context {Time CloseStatus gocqlError UUID : Type}.
Variable UnixNanoToCQLTimestamp : Z -> Time.
Variable showError : gocqlError -> string.
Variable UnixNano : Time -> Z.
Variable uuidString : UUID -> string.

Local Abbreviation value := (@Visibility.value Time CloseStatus).

Record WorkflowExecutionInfo : Type := mkInfo {
  InfoExecution : option WorkflowExecution;
  InfoType : option WorkflowType;
  StartTime : option Z;
  CloseTime : option Z;
  CloseStatusOf : option CloseStatus
}.

(** A query: its statement and bound values, and what the calls chained
    on it have set. *)
Record query : Type := mkQuery {
  qstmt : string;
  qargs : list value;
  qconsistency : Consistency;
  qtimestamp : option Time;
  qpageSize : Z;
  qpageState : list Byte.byte
}.

(** What an iterator still has to give: the rows not yet scanned, the
    page state, and the error [Close] will report. *)
Record iter (R : Type) : Type := mkIter {
  rows : list R;
  pageState : list Byte.byte;
  closeErr : option gocqlError
}.
Arguments mkIter {R} rows pageState closeErr.
Arguments rows {R} i.
Arguments pageState {R} i.
Arguments closeErr {R} i.

(** [iter.Scan]: the next row, if there is one. *)
Definition Scan {R} (it : iter R) : option (R * iter R) :=
  match rows it with
  | r :: rest => Some (r, mkIter rest (pageState it) (closeErr it))
  | [] => None
  end.

(** A row of the open table and of the closed table, as the scans read
    them. *)
Record openRow : Type := mkOpenRow {
  workflowID : string;
  runID : UUID;
  startTime : Time;
  typeName : string
}.

Record closedRow : Type := mkClosedRow {
  c_workflowID : string;
  c_runID : UUID;
  c_startTime : Time;
  c_closeTime : Time;
  c_typeName : string;
  c_status : CloseStatus
}.

(** The persistence object: its low consistency level and its session,
    which answers [Exec] and [Iter] for a query and whose own consistency
    is LocalQuorum; [issued] lists the queries handed to the session. *)
Record cassandraVisibilityPersistence : Type := mkPersistence {
  lowConslevel : Consistency;
  sessionExec : query -> option gocqlError;
  sessionIterOpen : query -> option (iter openRow);
  sessionIterClosed : query -> option (iter closedRow);
  issued : list query
}.

Definition issue (v : cassandraVisibilityPersistence) (q : query)
  : cassandraVisibilityPersistence :=
  mkPersistence (lowConslevel v) (sessionExec v) (sessionIterOpen v)
                (sessionIterClosed v) (issued v ++ [q]).

(** [session.Query] and the calls chained on a query. *)
Definition Query (s : string) (a : list value) : query :=
  mkQuery s a LocalQuorum None 0 [].
Definition Query_WithTimestamp (q : query) (t : Time) : query :=
  mkQuery (qstmt q) (qargs q) (qconsistency q) (Some t) (qpageSize q)
          (qpageState q).
Definition Query_Consistency (q : query) (c : Consistency) : query :=
  mkQuery (qstmt q) (qargs q) c (qtimestamp q) (qpageSize q) (qpageState q).
Definition Query_PageSize (q : query) (n : Z) : query :=
  mkQuery (qstmt q) (qargs q) (qconsistency q) (qtimestamp q) n
          (qpageState q).
Definition Query_PageState (q : query) (t : list Byte.byte) : query :=
  mkQuery (qstmt q) (qargs q) (qconsistency q) (qtimestamp q) (qpageSize q) t.

Record RecordWorkflowExecutionStartedRequest : Type := mkStartedRequest {
  StartedDomainUUID : string;
  StartedExecution : WorkflowExecution;
  StartedWorkflowTypeName : string;
  StartedStartTimestamp : Z
}.

Definition RecordWorkflowExecutionStarted (v : cassandraVisibilityPersistence)
  (request : RecordWorkflowExecutionStartedRequest)
  : option error * cassandraVisibilityPersistence :=
  let query := Query templateCreateWorkflowExecutionStarted
    [ VString (StartedDomainUUID request);
      VInt domainPartition;
      VString (GetWorkflowId (StartedExecution request));
      VString (GetRunId (StartedExecution request));
      VTime (UnixNanoToCQLTimestamp (StartedStartTimestamp request));
      VString (StartedWorkflowTypeName request) ] in
  let query :=
    Query_WithTimestamp query
      (UnixNanoToCQLTimestamp (StartedStartTimestamp request)) in
  match sessionExec v query with
  | Some err =>
      (Some (InternalServiceError
               ("RecordWorkflowExecutionStarted operation failed. Error: "
                +:+ showError err)), issue v query)
  | None => (None, issue v query)
  end.

Record ListWorkflowExecutionsRequest : Type := mkListRequest {
  DomainUUID : string;
  EarliestStartTime : Z;
  LatestStartTime : Z;
  PageSize : Z;
  NextPageToken : list Byte.byte
}.

(** The requests that embed [ListWorkflowExecutionsRequest]. *)
Record ListWorkflowExecutionsByTypeRequest : Type := mkByTypeRequest {
  byTypeBase :> ListWorkflowExecutionsRequest;
  WorkflowTypeName : string
}.

Record ListWorkflowExecutionsByWorkflowIDRequest : Type := mkByIDRequest {
  byIDBase :> ListWorkflowExecutionsRequest;
  WorkflowID : string
}.

Record ListClosedWorkflowExecutionsByStatusRequest : Type :=
  mkByStatusRequest {
  byStatusBase :> ListWorkflowExecutionsRequest;
  Status : CloseStatus
}.

(** [Executions] holds pointers; a nil one is [None]. *)
Record ListWorkflowExecutionsResponse : Type := mkListResponse {
  Executions : list (option WorkflowExecutionInfo);
  ResponseNextPageToken : list Byte.byte
}.

Definition readOpenWorkflowExecutionRecord (it : iter openRow)
  : option WorkflowExecutionInfo * bool * iter openRow :=
  match Scan it with
  | Some (r, it') =>
      let execution :=
        mkExecution (Some (workflowID r)) (Some (uuidString (runID r))) in
      let wfType := mkWorkflowType (Some (typeName r)) in
      let record :=
        mkInfo (Some execution) (Some wfType) (Some (UnixNano (startTime r)))
               None None in
      (Some record, true, it')
  | None => (None, false, it)
  end.

Definition readClosedWorkflowExecutionRecord (it : iter closedRow)
  : option WorkflowExecutionInfo * bool * iter closedRow :=
  match Scan it with
  | Some (r, it') =>
      let execution :=
        mkExecution (Some (c_workflowID r)) (Some (uuidString (c_runID r))) in
      let wfType := mkWorkflowType (Some (c_typeName r)) in
      let record :=
        mkInfo (Some execution) (Some wfType)
               (Some (UnixNano (c_startTime r)))
               (Some (UnixNano (c_closeTime r))) (Some (c_status r)) in
      (Some record, true, it')
  | None => (None, false, it)
  end.

(** The loop [for has { append; read }] of the list operations; it runs
    once per row, so [fuel] above the number of rows is never used up. *)
Fixpoint readLoop {R}
  (read : iter R -> option WorkflowExecutionInfo * bool * iter R)
  (fuel : nat) (wfexecution : option WorkflowExecutionInfo) (has : bool)
  (it : iter R) (executions : list (option WorkflowExecutionInfo))
  : list (option WorkflowExecutionInfo) * iter R :=
  match fuel with
  | O => (executions, it)
  | Datatypes.S fuel' =>
      if has then
        let executions := executions ++ [wfexecution] in
        let '(wfexecution', has', it') := read it in
        readLoop read fuel' wfexecution' has' it' executions
      else (executions, it)
  end.

(** The first read and the loop. *)
Definition readAll {R}
  (read : iter R -> option WorkflowExecutionInfo * bool * iter R)
  (it : iter R) : list (option WorkflowExecutionInfo) * iter R :=
  let '(wfexecution, has, it') := read it in
  readLoop read (Datatypes.S (length (rows it))) wfexecution has it' [].

(** What is common to the end of the list operations: the page token is
    copied, the iterator closed, and a close error discards the response. *)
Definition finishList {R} (name : string)
  (done : list (option WorkflowExecutionInfo) * iter R)
  : option ListWorkflowExecutionsResponse * option error :=
  let (executions, it) := done in
  let nextPageToken := pageState it in
  let response := mkListResponse executions nextPageToken in
  match closeErr it with
  | Some err =>
      (None, Some (InternalServiceError
                     (name +:+ " operation failed. Error: " +:+ showError err)))
  | None => (Some response, None)
  end.

Definition noIterator (name : string)
  : option ListWorkflowExecutionsResponse * option error :=
  (None, Some (InternalServiceError
                 (name +:+ " operation failed.  Not able to create query iterator."))).

Definition ListOpenWorkflowExecutions (v : cassandraVisibilityPersistence)
  (request : ListWorkflowExecutionsRequest) :=
  let query := Query_Consistency
    (Query templateGetOpenWorkflowExecutions
       [ VString (DomainUUID request); VInt domainPartition;
         VTime (UnixNanoToCQLTimestamp (EarliestStartTime request));
         VTime (UnixNanoToCQLTimestamp (LatestStartTime request)) ])
    (lowConslevel v) in
  let query := Query_PageState (Query_PageSize query (PageSize request))
                               (NextPageToken request) in
  (match sessionIterOpen v query with
   | None => noIterator "ListOpenWorkflowExecutions"
   | Some it =>
       finishList "ListOpenWorkflowExecutions"
                  (readAll readOpenWorkflowExecutionRecord it)
   end, issue v query).

(** The messages of this one name the open listing, as in the source. *)
Definition ListClosedWorkflowExecutions (v : cassandraVisibilityPersistence)
  (request : ListWorkflowExecutionsRequest) :=
  let query := Query_Consistency
    (Query templateGetClosedWorkflowExecutions
       [ VString (DomainUUID request); VInt domainPartition;
         VTime (UnixNanoToCQLTimestamp (EarliestStartTime request));
         VTime (UnixNanoToCQLTimestamp (LatestStartTime request)) ])
    (lowConslevel v) in
  let query := Query_PageState (Query_PageSize query (PageSize request))
                               (NextPageToken request) in
  (match sessionIterClosed v query with
   | None => noIterator "ListOpenWorkflowExecutions"
   | Some it =>
       finishList "ListOpenWorkflowExecutions"
                  (readAll readClosedWorkflowExecutionRecord it)
   end, issue v query).

Definition ListOpenWorkflowExecutionsByType
  (v : cassandraVisibilityPersistence)
  (request : ListWorkflowExecutionsByTypeRequest) :=
  let query := Query_Consistency
    (Query templateGetOpenWorkflowExecutionsByType
       [ VString (DomainUUID request); VInt domainPartition;
         VTime (UnixNanoToCQLTimestamp (EarliestStartTime request));
         VTime (UnixNanoToCQLTimestamp (LatestStartTime request));
         VString (WorkflowTypeName request) ])
    (lowConslevel v) in
  let query := Query_PageState (Query_PageSize query (PageSize request))
                               (NextPageToken request) in
  (match sessionIterOpen v query with
   | None => noIterator "ListOpenWorkflowExecutionsByType"
   | Some it =>
       finishList "ListOpenWorkflowExecutionsByType"
                  (readAll readOpenWorkflowExecutionRecord it)
   end, issue v query).

Definition ListClosedWorkflowExecutionsByType
  (v : cassandraVisibilityPersistence)
  (request : ListWorkflowExecutionsByTypeRequest) :=
  let query := Query_Consistency
    (Query templateGetClosedWorkflowExecutionsByType
       [ VString (DomainUUID request); VInt domainPartition;
         VTime (UnixNanoToCQLTimestamp (EarliestStartTime request));
         VTime (UnixNanoToCQLTimestamp (LatestStartTime request));
         VString (WorkflowTypeName request) ])
    (lowConslevel v) in
  let query := Query_PageState (Query_PageSize query (PageSize request))
                               (NextPageToken request) in
  (match sessionIterClosed v query with
   | None => noIterator "ListClosedWorkflowExecutionsByType"
   | Some it =>
       finishList "ListClosedWorkflowExecutionsByType"
                  (readAll readClosedWorkflowExecutionRecord it)
   end, issue v query).

Definition ListOpenWorkflowExecutionsByWorkflowID
  (v : cassandraVisibilityPersistence)
  (request : ListWorkflowExecutionsByWorkflowIDRequest) :=
  let query := Query_Consistency
    (Query templateGetOpenWorkflowExecutionsByID
       [ VString (DomainUUID request); VInt domainPartition;
         VTime (UnixNanoToCQLTimestamp (EarliestStartTime request));
         VTime (UnixNanoToCQLTimestamp (LatestStartTime request));
         VString (WorkflowID request) ])
    (lowConslevel v) in
  let query := Query_PageState (Query_PageSize query (PageSize request))
                               (NextPageToken request) in
  (match sessionIterOpen v query with
   | None => noIterator "ListOpenWorkflowExecutionsByWorkflowID"
   | Some it =>
       finishList "ListOpenWorkflowExecutionsByWorkflowID"
                  (readAll readOpenWorkflowExecutionRecord it)
   end, issue v query).

Definition ListClosedWorkflowExecutionsByWorkflowID
  (v : cassandraVisibilityPersistence)
  (request : ListWorkflowExecutionsByWorkflowIDRequest) :=
  let query := Query_Consistency
    (Query templateGetClosedWorkflowExecutionsByID
       [ VString (DomainUUID request); VInt domainPartition;
         VTime (UnixNanoToCQLTimestamp (EarliestStartTime request));
         VTime (UnixNanoToCQLTimestamp (LatestStartTime request));
         VString (WorkflowID request) ])
    (lowConslevel v) in
  let query := Query_PageState (Query_PageSize query (PageSize request))
                               (NextPageToken request) in
  (match sessionIterClosed v query with
   | None => noIterator "ListClosedWorkflowExecutionsByWorkflowID"
   | Some it =>
       finishList "ListClosedWorkflowExecutionsByWorkflowID"
                  (readAll readClosedWorkflowExecutionRecord it)
   end, issue v query).

Definition ListClosedWorkflowExecutionsByStatus
  (v : cassandraVisibilityPersistence)
  (request : ListClosedWorkflowExecutionsByStatusRequest) :=
  let query := Query_Consistency
    (Query templateGetClosedWorkflowExecutionsByStatus
       [ VString (DomainUUID request); VInt domainPartition;
         VTime (UnixNanoToCQLTimestamp (EarliestStartTime request));
         VTime (UnixNanoToCQLTimestamp (LatestStartTime request));
         VStatus (Status request) ])
    (lowConslevel v) in
  let query := Query_PageState (Query_PageSize query (PageSize request))
                               (NextPageToken request) in
  (match sessionIterClosed v query with
   | None => noIterator "ListClosedWorkflowExecutionsByStatus"
   | Some it =>
       finishList "ListClosedWorkflowExecutionsByStatus"
                  (readAll readClosedWorkflowExecutionRecord it)
   end, issue v query).

(** The list operations. *)
Inductive listOp : Type :=
| OpListOpen
| OpListClosed
| OpListOpenByType
| OpListClosedByType
| OpListOpenByWorkflowID
| OpListClosedByWorkflowID
| OpListClosedByStatus.

Definition requestOf (op : listOp) : Type :=
  match op with
  | OpListOpen | OpListClosed => ListWorkflowExecutionsRequest
  | OpListOpenByType | OpListClosedByType =>
      ListWorkflowExecutionsByTypeRequest
  | OpListOpenByWorkflowID | OpListClosedByWorkflowID =>
      ListWorkflowExecutionsByWorkflowIDRequest
  | OpListClosedByStatus => ListClosedWorkflowExecutionsByStatusRequest
  end.

(** A call of list operation [op]. *)
Definition listWith (v : cassandraVisibilityPersistence) (op : listOp)
  : requestOf op ->
    (option ListWorkflowExecutionsResponse * option error) *
    cassandraVisibilityPersistence :=
  match op return requestOf op -> _ with
  | OpListOpen => ListOpenWorkflowExecutions v
  | OpListClosed => ListClosedWorkflowExecutions v
  | OpListOpenByType => ListOpenWorkflowExecutionsByType v
  | OpListClosedByType => ListClosedWorkflowExecutionsByType v
  | OpListOpenByWorkflowID => ListOpenWorkflowExecutionsByWorkflowID v
  | OpListClosedByWorkflowID => ListClosedWorkflowExecutionsByWorkflowID v
  | OpListClosedByStatus => ListClosedWorkflowExecutionsByStatus v
  end.

(** The embedded request, the table read, and the filter value bound
    after the four common values. *)
Definition baseOf (op : listOp) : requestOf op -> ListWorkflowExecutionsRequest :=
  match op return requestOf op -> ListWorkflowExecutionsRequest with
  | OpListOpen | OpListClosed => fun r => r
  | OpListOpenByType | OpListClosedByType => byTypeBase
  | OpListOpenByWorkflowID | OpListClosedByWorkflowID => byIDBase
  | OpListClosedByStatus => byStatusBase
  end.

Definition readsClosed (op : listOp) : bool :=
  match op with
  | OpListOpen | OpListOpenByType | OpListOpenByWorkflowID => false
  | _ => true
  end.

Definition filterOf (op : listOp) : requestOf op -> list value :=
  match op return requestOf op -> list value with
  | OpListOpen | OpListClosed => fun _ => []
  | OpListOpenByType | OpListClosedByType =>
      fun r => [VString (WorkflowTypeName r)]
  | OpListOpenByWorkflowID | OpListClosedByWorkflowID =>
      fun r => [VString (WorkflowID r)]
  | OpListClosedByStatus => fun r => [VStatus (Status r)]
  end.

Definition templateOf (op : listOp) : string :=
  match op with
  | OpListOpen => templateGetOpenWorkflowExecutions
  | OpListClosed => templateGetClosedWorkflowExecutions
  | OpListOpenByType => templateGetOpenWorkflowExecutionsByType
  | OpListClosedByType => templateGetClosedWorkflowExecutionsByType
  | OpListOpenByWorkflowID => templateGetOpenWorkflowExecutionsByID
  | OpListClosedByWorkflowID => templateGetClosedWorkflowExecutionsByID
  | OpListClosedByStatus => templateGetClosedWorkflowExecutionsByStatus
  end.

(** The name an operation puts in its error messages. *)
Definition reportedAs (op : listOp) : string :=
  match op with
  | OpListOpen | OpListClosed => "ListOpenWorkflowExecutions"
  | OpListOpenByType => "ListOpenWorkflowExecutionsByType"
  | OpListClosedByType => "ListClosedWorkflowExecutionsByType"
  | OpListOpenByWorkflowID => "ListOpenWorkflowExecutionsByWorkflowID"
  | OpListClosedByWorkflowID => "ListClosedWorkflowExecutionsByWorkflowID"
  | OpListClosedByStatus => "ListClosedWorkflowExecutionsByStatus"
  end.

(** The query a list operation hands to the session. *)
Definition queryOf (v : cassandraVisibilityPersistence) (op : listOp)
  (request : requestOf op) : query :=
  let base := baseOf op request in
  mkQuery (templateOf op)
    ([ VString (DomainUUID base); VInt domainPartition;
       VTime (UnixNanoToCQLTimestamp (EarliestStartTime base));
       VTime (UnixNanoToCQLTimestamp (LatestStartTime base)) ]
     ++ filterOf op request)
    (lowConslevel v) None (PageSize base) (NextPageToken base).

(** The record made of a row of the open and of the closed table. *)
Definition openInfo (r : openRow) : WorkflowExecutionInfo :=
  mkInfo (Some (mkExecution (Some (workflowID r))
                            (Some (uuidString (runID r)))))
         (Some (mkWorkflowType (Some (typeName r))))
         (Some (UnixNano (startTime r))) None None.

Definition closedInfo (r : closedRow) : WorkflowExecutionInfo :=
  mkInfo (Some (mkExecution (Some (c_workflowID r))
                            (Some (uuidString (c_runID r)))))
         (Some (mkWorkflowType (Some (c_typeName r))))
         (Some (UnixNano (c_startTime r)))
         (Some (UnixNano (c_closeTime r))) (Some (c_status r)).

(** What the session's iterator for a query holds, as records: the rows
    in order, the page state and the close error. *)
Definition answerOf (v : cassandraVisibilityPersistence) (op : listOp)
  (q : query)
  : option (list WorkflowExecutionInfo * list Byte.byte * option gocqlError) :=
  if readsClosed op
  then option_map (fun it => (map closedInfo (rows it), pageState it,
                              closeErr it)) (sessionIterClosed v q)
  else option_map (fun it => (map openInfo (rows it), pageState it,
                              closeErr it)) (sessionIterOpen v q).

Lemma readLoop_scan {R} (conv : R -> WorkflowExecutionInfo)
  (read : iter R -> option WorkflowExecutionInfo * bool * iter R) :
  (forall it, read it =
     match Scan it with
     | Some (r, it') => (Some (conv r), true, it')
     | None => (None, false, it)
     end) ->
  forall rs ps ce fuel acc r0,
    (length rs < fuel)%nat ->
    readLoop read fuel (Some (conv r0)) true (mkIter rs ps ce) acc =
    (acc ++ Some (conv r0) :: map (fun r => Some (conv r)) rs,
     mkIter [] ps ce).
Proof.
  intros Hread. induction rs as [|r1 rs IH]; intros ps ce fuel acc r0 Hf;
    (destruct fuel as [|fuel]; [simpl in Hf; lia|]); simpl; rewrite Hread;
    unfold Scan; simpl.
  - destruct fuel; reflexivity.
  - rewrite IH by (simpl in Hf; lia). rewrite <- app_assoc. reflexivity.
Qed.

Lemma readAll_scan {R} (conv : R -> WorkflowExecutionInfo)
  (read : iter R -> option WorkflowExecutionInfo * bool * iter R) :
  (forall it, read it =
     match Scan it with
     | Some (r, it') => (Some (conv r), true, it')
     | None => (None, false, it)
     end) ->
  forall it,
    readAll read it =
    (map (fun r => Some (conv r)) (rows it),
     mkIter [] (pageState it) (closeErr it)).
Proof.
  intros Hread [[|r0 rs] ps ce]; unfold readAll; rewrite Hread; unfold Scan;
    cbn [rows pageState closeErr]; [reflexivity|].
  apply (readLoop_scan conv read Hread rs ps ce _ [] r0). simpl. lia.
Qed.

Lemma readAll_open (it : iter openRow) :
  readAll readOpenWorkflowExecutionRecord it =
  (map (fun r => Some (openInfo r)) (rows it),
   mkIter [] (pageState it) (closeErr it)).
Proof.
  apply readAll_scan. intros it0. unfold readOpenWorkflowExecutionRecord.
  destruct (Scan it0) as [[r it']|]; reflexivity.
Qed.

Lemma readAll_closed (it : iter closedRow) :
  readAll readClosedWorkflowExecutionRecord it =
  (map (fun r => Some (closedInfo r)) (rows it),
   mkIter [] (pageState it) (closeErr it)).
Proof.
  apply readAll_scan. intros it0. unfold readClosedWorkflowExecutionRecord.
  destruct (Scan it0) as [[r it']|]; reflexivity.
Qed.

(** Every list operation in one form. *)
Lemma listWith_closed_form (v : cassandraVisibilityPersistence) (op : listOp)
  (request : requestOf op) :
  listWith v op request =
  (match answerOf v op (queryOf v op request) with
   | None => noIterator (reportedAs op)
   | Some (infos, token, None) =>
       (Some (mkListResponse (map Some infos) token), None)
   | Some (_, _, Some err) =>
       (None, Some (InternalServiceError
                      (reportedAs op +:+ " operation failed. Error: "
                       +:+ showError err)))
   end, issue v (queryOf v op request)).
Proof.
  destruct op; simpl in request |- *;
    unfold ListOpenWorkflowExecutions, ListClosedWorkflowExecutions,
      ListOpenWorkflowExecutionsByType, ListClosedWorkflowExecutionsByType,
      ListOpenWorkflowExecutionsByWorkflowID,
      ListClosedWorkflowExecutionsByWorkflowID,
      ListClosedWorkflowExecutionsByStatus, answerOf, queryOf,
      Query_PageState, Query_PageSize, Query_Consistency, Query; simpl;
    f_equal;
    match goal with
    | |- context [sessionIterOpen v ?q] =>
        destruct (sessionIterOpen v q) as [it|]; [|reflexivity];
        rewrite readAll_open
    | |- context [sessionIterClosed v ?q] =>
        destruct (sessionIterClosed v q) as [it|]; [|reflexivity];
        rewrite readAll_closed
    end;
    unfold finishList; simpl; rewrite map_map;
    destruct (closeErr it); reflexivity.
Qed.

Local Abbreviation resultOf v op request := (fst (listWith v op request)).

(** X15. When the session gives an iterator for the query and closing it
    reports no error, a list operation returns, with a nil error, one
    record for every row of the iterator, none of them nil and in the order
    of the rows, and the iterator's page state as the next page token. *)
Theorem list_returns_rows_in_order (v : cassandraVisibilityPersistence)
  (op : listOp) (request : requestOf op)
  (infos : list WorkflowExecutionInfo) (token : list Byte.byte) :
  answerOf v op (queryOf v op request) = Some (infos, token, None) ->
  resultOf v op request =
    (Some (mkListResponse (map Some infos) token), None).
Proof. intros H. rewrite listWith_closed_form, H. reflexivity. Qed.

(** X16. When closing the iterator reports an error, the rows already read
    are thrown away: there is no response, and the error is an internal
    service error that carries the name the operation reports under, which
    for ListClosedWorkflowExecutions is ListOpenWorkflowExecutions, and the
    text of the close error. *)
Theorem list_close_error_discards_rows (v : cassandraVisibilityPersistence)
  (op : listOp) (request : requestOf op)
  (infos : list WorkflowExecutionInfo) (token : list Byte.byte)
  (err : gocqlError) :
  answerOf v op (queryOf v op request) = Some (infos, token, Some err) ->
  resultOf v op request =
    (None, Some (InternalServiceError
                   (reportedAs op +:+ " operation failed. Error: "
                    +:+ showError err))) /\
  reportedAs OpListClosed = reportedAs OpListOpen.
Proof. intros H. rewrite listWith_closed_form, H. split; reflexivity. Qed.

(** X17. A list operation returns a response or an error, never both and
    never neither; it returns a response exactly when the session gives an
    iterator whose close reports no error. *)
Theorem list_response_xor_error (v : cassandraVisibilityPersistence)
  (op : listOp) (request : requestOf op) :
  (is_Some (fst (resultOf v op request)) <->
   snd (resultOf v op request) = None) /\
  (is_Some (fst (resultOf v op request)) <->
   exists infos token,
     answerOf v op (queryOf v op request) = Some (infos, token, None)).
Proof.
  rewrite listWith_closed_form. cbn [fst].
  destruct (answerOf v op (queryOf v op request)) as [[[infos token] [err|]]|];
    simpl; (split; split);
    try (intros [x Hx]; discriminate Hx);
    try discriminate;
    try (intros (i & t & Hi); discriminate Hi);
    try (intros _; eauto).
Qed.

(** X18. A list operation hands the session exactly one query and changes
    nothing else of the persistence object: the operation's own statement,
    bound to the domain, the fixed partition, the two ends of the time
    window and the operation's filter value, read at the low consistency
    level, with the request's page size and page token and no timestamp. *)
Theorem list_issues_one_query (v : cassandraVisibilityPersistence)
  (op : listOp) (request : requestOf op) :
  let v' := snd (listWith v op request) in
  let base := baseOf op request in
  exists q,
    issued v' = issued v ++ [q] /\
    lowConslevel v' = lowConslevel v /\
    qstmt q = templateOf op /\
    qargs q =
      [ VString (DomainUUID base); VInt 0;
        VTime (UnixNanoToCQLTimestamp (EarliestStartTime base));
        VTime (UnixNanoToCQLTimestamp (LatestStartTime base)) ]
      ++ filterOf op request /\
    qconsistency q = lowConslevel v /\
    qpageSize q = PageSize base /\
    qpageState q = NextPageToken base /\
    qtimestamp q = None.
Proof.
  intros v' base. subst v'. rewrite listWith_closed_form.
  exists (queryOf v op request). repeat split.
Qed.

(** X19. Every record a list operation returns names its execution, its
    type and its start time; those from the open table have neither close
    time nor close status, those from the closed table have both. *)
Theorem list_records_are_complete (v : cassandraVisibilityPersistence)
  (op : listOp) (request : requestOf op)
  (response : ListWorkflowExecutionsResponse) :
  fst (resultOf v op request) = Some response ->
  Forall (fun e =>
            exists info execution, e = Some info /\
              InfoExecution info = Some execution /\
              is_Some (WorkflowId execution) /\ is_Some (RunId execution) /\
              is_Some (InfoType info) /\ is_Some (StartTime info) /\
              (if readsClosed op
               then is_Some (CloseTime info) /\ is_Some (CloseStatusOf info)
               else CloseTime info = None /\ CloseStatusOf info = None))
         (Executions response).
Proof.
  rewrite listWith_closed_form. cbn [fst]. unfold answerOf.
  destruct (readsClosed op).
  - destruct (sessionIterClosed v _) as [it|]; [|discriminate]. simpl.
    destruct (closeErr it); [discriminate|]. intros [= <-]. simpl.
    rewrite map_map. apply Forall_forall. intros e He.
    apply list_elem_of_fmap in He. destruct He as (r & -> & _).
    eexists _, _. repeat split; eauto.
  - destruct (sessionIterOpen v _) as [it|]; [|discriminate]. simpl.
    destruct (closeErr it); [discriminate|]. intros [= <-]. simpl.
    rewrite map_map. apply Forall_forall. intros e He.
    apply list_elem_of_fmap in He. destruct He as (r & -> & _).
    eexists _, _. repeat split; eauto.
Qed.

(** The values that key a row of the open table in the insert of
    [RecordWorkflowExecutionStarted]: domain_id, domain_partition,
    start_time and run_id, the first, second, fifth and fourth it binds. *)
Definition openKeyOfInsert (q : query) : list (option value) :=
  [qargs q !! 0%nat; qargs q !! 1%nat; qargs q !! 4%nat; qargs q !! 3%nat].

(** X20. What [RecordWorkflowExecutionClosed] deletes is what
    [RecordWorkflowExecutionStarted] inserted: for a started and a closed
    request that agree on domain, start timestamp and execution, the four
    values bound by the delete on the open table are the four key values
    bound by the insert, column for column. *)
Theorem closed_deletes_the_started_row
  (v : cassandraVisibilityPersistence)
  (s : @Visibility.session Time CloseStatus gocqlError)
  (started : RecordWorkflowExecutionStartedRequest)
  (closed : @RecordWorkflowExecutionClosedRequest CloseStatus) :
  StartedDomainUUID started = Visibility.DomainUUID closed ->
  StartedStartTimestamp started = Visibility.StartTimestamp closed ->
  StartedExecution started = Visibility.Execution closed ->
  exists insert batch del,
    issued (snd (RecordWorkflowExecutionStarted v started)) =
      issued v ++ [insert] /\
    executed (snd (RecordWorkflowExecutionClosed UnixNanoToCQLTimestamp
                     showError s closed)) = executed s ++ [batch] /\
    head (entries batch) = Some del /\
    qstmt insert = templateCreateWorkflowExecutionStarted /\
    stmt del = templateDeleteWorkflowExecutionStarted /\
    openKeyOfInsert insert = map Some (args del).
Proof.
  intros Hd Ht He.
  unfold RecordWorkflowExecutionStarted, RecordWorkflowExecutionClosed,
    ExecuteBatch.
  destruct (sessionExec v _); destruct (answer s _); simpl;
    eexists _, _, _; repeat split; unfold openKeyOfInsert; simpl;
    rewrite Hd, Ht, He; reflexivity.
Qed.

End Queries.

Arguments mkIter {gocqlError R} rows pageState closeErr.
Arguments rows {gocqlError R} i.
Arguments pageState {gocqlError R} i.
Arguments closeErr {gocqlError R} i.

(** *** The list operations on a store with two open rows *)

Definition twoOpenRows : list (@openRow Z string) :=
  [ mkOpenRow "w1"%string "r1"%string 10 "t"%string;
    mkOpenRow "w2"%string "r2"%string 20 "t"%string ].

(** A store whose open table gives [twoOpenRows] for every query and
    whose iterators close with [closing]. *)
Definition openStore (closing : option string)
  : @cassandraVisibilityPersistence Z nat string string :=
  mkPersistence One (fun _ => None)
    (fun _ => Some (mkIter twoOpenRows [] closing)) (fun _ => None) [].

Definition window : ListWorkflowExecutionsRequest :=
  mkListRequest "d"%string 0 100 10 [].

Definition twoOpenInfos : list (@WorkflowExecutionInfo nat) :=
  map (openInfo (fun t => t) (fun u => u)) twoOpenRows.

Lemma list_returns_rows_in_order_witness :
  answerOf (fun t => t) (fun u => u) (openStore None) OpListOpen
    (queryOf (fun z => z) (openStore None) OpListOpen window) =
    Some (twoOpenInfos, [], None) /\
  fst (listWith (fun z => z) (fun e => e) (fun t => t) (fun u => u)
         (openStore None) OpListOpen window) =
    (Some (mkListResponse (map Some twoOpenInfos) []), None).
Proof.
  split; [reflexivity|].
  exact (list_returns_rows_in_order (fun z => z) (fun e => e) (fun t => t)
           (fun u => u) (openStore None) OpListOpen window twoOpenInfos []
           eq_refl).
Defined.

Lemma list_close_error_discards_rows_witness :
  let v := openStore (Some "timeout"%string) in
  answerOf (fun t => t) (fun u => u) v OpListOpen
    (queryOf (fun z => z) v OpListOpen window) =
    Some (twoOpenInfos, [], Some "timeout"%string) /\
  fst (listWith (fun z => z) (fun e => e) (fun t => t) (fun u => u)
         v OpListOpen window) =
    (None, Some (InternalServiceError
       "ListOpenWorkflowExecutions operation failed. Error: timeout")).
Proof.
  intros v. split; [reflexivity|].
  exact (proj1 (list_close_error_discards_rows (fun z => z) (fun e => e)
                  (fun t => t) (fun u => u) v OpListOpen window twoOpenInfos
                  [] "timeout"%string eq_refl)).
Defined.

Lemma list_records_are_complete_witness :
  let response := mkListResponse (map Some twoOpenInfos) [] in
  fst (fst (listWith (fun z => z) (fun e => e) (fun t => t) (fun u => u)
              (openStore None) OpListOpen window)) = Some response /\
  Forall (fun e =>
            exists info execution, e = Some info /\
              InfoExecution info = Some execution /\
              is_Some (WorkflowId execution) /\ is_Some (RunId execution) /\
              is_Some (InfoType info) /\ is_Some (StartTime info) /\
              CloseTime info = None /\ CloseStatusOf info = None)
         (Executions response).
Proof.
  intros response. split; [reflexivity|].
  exact (list_records_are_complete (fun z => z) (fun e => e) (fun t => t)
           (fun u => u) (openStore None) OpListOpen window response eq_refl).
Defined.

Lemma closed_deletes_the_started_row_witness :
  let execution := mkExecution (Some "w1"%string) (Some "r1"%string) in
  let started := mkStartedRequest "d"%string execution "t"%string 10 in
  let closed :=
    mkClosedRequest (CloseStatus := nat) "d"%string execution "t"%string
                    10 20 O 0 in
  let s := mkSession (Time := Z) (gocqlError := string) [] (fun _ => None) in
  exists insert batch del,
    issued (snd (RecordWorkflowExecutionStarted (fun z => z) (fun e => e)
                   (openStore None) started)) =
      issued (openStore None) ++ [insert] /\
    executed (snd (RecordWorkflowExecutionClosed (fun z => z) (fun e => e)
                     s closed)) = executed s ++ [batch] /\
    head (entries batch) = Some del /\
    qstmt insert = templateCreateWorkflowExecutionStarted /\
    stmt del = templateDeleteWorkflowExecutionStarted /\
    openKeyOfInsert insert = map Some (args del).
Proof.
  intros execution started closed s.
  exact (closed_deletes_the_started_row (fun z => z) (fun e => e)
           (openStore None) s started closed eq_refl eq_refl eq_refl).
Defined.

End VisibilityQueries.

(** ** The logging configuration (common/service/config) *)
Module LogConfig.

(** The levels of logrus. *)
Inductive logrusLevel : Type :=
| PanicLevel
| FatalLevel
| ErrorLevel
| WarnLevel
| InfoLevel
| DebugLevel.

(** [os.FileMode(0644)] *)
Definition fileMode : Z := 420.

(** The flags [OpenFile] is given. *)
Inductive openFlag : Type :=
| O_WRONLY
| O_APPEND
| O_CREATE.

(** A call either returns or, through [log.Fatalf], ends the process. *)
Inductive exit (A : Type) : Type :=
| Returns (a : A)
| Fatal (msg : string).
Arguments Returns {A} a.
Arguments Fatal {A} msg.

(** The logging section of the configuration. *)
Record Logger : Type := mkLogger {
  Stdout : bool;
  Level : string;
  OutputFile : string
}.

Record TextFormatter : Type := mkTextFormatter {
  FullTimestamp : bool
}.

Section Logging.

(** [strings.ToLower], [filepath.Dir] and [*os.File]. *)
Variable ToLower : string -> string.
Variable Dir : string -> string.
Context {File osError : Type}.
Variable showError : osError -> string.

(** Where a logger writes. *)
#[warnings="-register-all"]
Inductive writer : Type :=
| Discard
| OsStdout
| ToFile (f : File)
| MultiWriter (ws : list writer).

Record logrusLogger : Type := mkLogrus {
  Out : writer;
  LoggerLevel : logrusLevel;
  Formatter : TextFormatter
}.

(** The calls made on the file system, and the file system: what
    [MkdirAll] and [OpenFile] answer, and the calls made so far. *)
Inductive fsCall : Type :=
| MkdirAll (dir : string) (mode : Z)
| OpenFile (path : string) (flags : list openFlag) (mode : Z).

Record fileSystem : Type := mkFileSystem {
  mkdirAnswer : string -> option osError;
  openAnswer : string -> File + osError;
  calls : list fsCall
}.

Definition called (fs : fileSystem) (c : fsCall) : fileSystem :=
  mkFileSystem (mkdirAnswer fs) (openAnswer fs) (calls fs ++ [c]).

Definition getFormatter : TextFormatter := mkTextFormatter true.

(** [len(s) > 0] *)
Definition nonEmpty (s : string) : bool := Nat.ltb 0 (String.length s).

Definition createLogFile (path : string) (fs : fileSystem)
  : exit File * fileSystem :=
  let dir := Dir path in
  let made :=
    if nonEmpty dir && negb (String.eqb dir ".")
    then
      let fs1 := called fs (MkdirAll dir fileMode) in
      match mkdirAnswer fs dir with
      | Some err =>
          (Fatal ("error creating log directory " +:+ dir +:+ ", err=" +:+
                  showError err), fs1)
      | None => (Returns tt, fs1)
      end
    else (Returns tt, fs) in
  match made with
  | (Fatal msg, fs1) => (Fatal msg, fs1)
  | (Returns _, fs1) =>
      let fs2 :=
        called fs1 (OpenFile path [O_WRONLY; O_APPEND; O_CREATE] fileMode) in
      match openAnswer fs path with
      | inr err =>
          (Fatal ("error creating log file " +:+ path +:+ ", err=" +:+
                  showError err), fs2)
      | inl file => (Returns file, fs2)
      end
  end.

Definition parseLogrusLevel (level : string) : logrusLevel :=
  let l := ToLower level in
  if String.eqb l "debug" then DebugLevel
  else if String.eqb l "info" then InfoLevel
  else if String.eqb l "warn" then WarnLevel
  else if String.eqb l "error" then ErrorLevel
  else if String.eqb l "fatal" then FatalLevel
  else InfoLevel.

Definition set_Out (l : logrusLogger) (w : writer) : logrusLogger :=
  mkLogrus w (LoggerLevel l) (Formatter l).

(** [NewBarkLogger]; the bark logger it returns wraps the logrus one. *)
Definition NewBarkLogger (cfg : Logger) (fs : fileSystem)
  : exit logrusLogger * fileSystem :=
  let logger := mkLogrus Discard (parseLogrusLevel (Level cfg))
                         getFormatter in
  let logger := if Stdout cfg then set_Out logger OsStdout else logger in
  if nonEmpty (OutputFile cfg) then
    match createLogFile (OutputFile cfg) fs with
    | (Returns outFile, fs') =>
        let logger := set_Out logger (ToFile outFile) in
        let logger :=
          if Stdout cfg
          then set_Out logger (MultiWriter [OsStdout; ToFile outFile])
          else logger in
        (Returns logger, fs')
    | (Fatal msg, fs') => (Fatal msg, fs')
    end
  else (Returns logger, fs).

Lemma nonEmpty_false (s : string) : nonEmpty s = false <-> s = ""%string.
Proof. destruct s; simpl; split; intros H; try reflexivity; discriminate. Qed.

(** X21. With no output file configured, [NewBarkLogger] makes no call on
    the file system and cannot end the process: it returns a logger that
    writes to standard output when that is asked for and discards its
    output otherwise, with full timestamps and a level that is never the
    panic level. *)
Theorem no_output_file_no_filesystem (cfg : Logger) (fs : fileSystem) :
  OutputFile cfg = ""%string ->
  exists logger,
    NewBarkLogger cfg fs = (Returns logger, fs) /\
    Out logger = (if Stdout cfg then OsStdout else Discard) /\
    FullTimestamp (Formatter logger) = true /\
    LoggerLevel logger <> PanicLevel.
Proof.
  intros H. unfold NewBarkLogger. apply nonEmpty_false in H. rewrite H.
  eexists. split; [reflexivity|]. destruct (Stdout cfg); simpl;
    repeat split; unfold parseLogrusLevel;
    repeat (destruct (String.eqb _ _)); discriminate.
Qed.

(** X22. When the directory of the output file has to be made and that
    fails, the process ends there: the one call made on the file system is
    the [MkdirAll], with the mode 0644 of the file, and the file is never
    opened. *)
Theorem log_directory_failure_is_fatal (cfg : Logger) (fs : fileSystem)
  (err : osError) :
  OutputFile cfg <> ""%string ->
  Dir (OutputFile cfg) <> ""%string ->
  Dir (OutputFile cfg) <> "."%string ->
  mkdirAnswer fs (Dir (OutputFile cfg)) = Some err ->
  exists msg fs',
    NewBarkLogger cfg fs = (Fatal msg, fs') /\
    calls fs' = calls fs ++ [MkdirAll (Dir (OutputFile cfg)) 420].
Proof.
  intros Hf Hd Hdot Hm. unfold NewBarkLogger, createLogFile.
  destruct (nonEmpty (OutputFile cfg)) eqn:E1;
    [|apply nonEmpty_false in E1; contradiction].
  destruct (nonEmpty (Dir (OutputFile cfg))) eqn:E2;
    [|apply nonEmpty_false in E2; contradiction].
  destruct (String.eqb_spec (Dir (OutputFile cfg)) "."); [contradiction|].
  simpl. rewrite Hm. eexists _, _. split; reflexivity.
Qed.

End Logging.

Lemma no_output_file_no_filesystem_witness :
  let cfg := mkLogger true "DEBUG" "" in
  let fs := mkFileSystem (File := nat) (osError := string)
              (fun _ => None) (fun _ => inl O) [] in
  OutputFile cfg = ""%string /\
  exists logger,
    NewBarkLogger (fun s => s) (fun s => s) (fun e => e) cfg fs =
      (Returns logger, fs) /\
    Out logger = (if Stdout cfg then OsStdout else Discard) /\
    FullTimestamp (Formatter logger) = true /\
    LoggerLevel logger <> PanicLevel.
Proof.
  intros cfg fs. split; [reflexivity|].
  exact (no_output_file_no_filesystem (fun s => s) (fun s => s) (fun e => e)
           cfg fs eq_refl).
Defined.

Lemma log_directory_failure_is_fatal_witness :
  let cfg := mkLogger false "info" "logs/cadence.log" in
  let fs := mkFileSystem (File := nat) (osError := string)
              (fun _ => Some "denied"%string) (fun _ => inl O) [] in
  exists msg fs',
    NewBarkLogger (fun s => s) (fun _ => "logs"%string) (fun e => e) cfg fs =
      (Fatal msg, fs') /\
    calls fs' = calls fs ++ [MkdirAll "logs" 420].
Proof.
  intros cfg fs.
  apply (log_directory_failure_is_fatal (fun s => s)
           (fun _ => "logs"%string) (fun e => e) cfg fs "denied"%string);
    try discriminate; reflexivity.
Defined.

End LogConfig.
